(** * Stage: the root of the scene graph (core/Stage)

    A shallow embedding of the [Stage] class: its scene list, its change
    tracking, resize and zoom, configuration loading, serialisation and the
    render loop.  JavaScript objects live in a store and are named by their
    address, so that two names for one object are two copies of one address;
    calls on collaborators the class does not define (scenes, the composer,
    the buffers, the event bus) are recorded, in order, in a trace. *)

From Stdlib Require Import Floats ZArith.
From stdpp Require Import gmap strings list fin_maps functions pretty.

Set Warnings "-register-all".

(** ** JavaScript values *)

(** The values a project file can hold, as [JSON.parse] builds them, plus
    [undefined].  Numbers are IEEE 754 binary64, as in JavaScript.  An object
    is given by its property definitions in the order they were made, as an
    object literal or a JSON text lists them: JavaScript objects remember the
    order in which their keys were added, and [Object.keys] depends on it. *)
Inductive value :=
  | VUndef
  | VNull
  | VBool (b : bool)
  | VNum (n : float)
  | VStr (s : string)
  | VArr (l : list value)
  | VObj (fields : list (string * value)).

Module JS.

(** [typeof v] *)
Definition typeof (v : value) : string :=
  match v with
  | VUndef => "undefined"
  | VNull => "object"
  | VBool _ => "boolean"
  | VNum _ => "number"
  | VStr _ => "string"
  | VArr _ => "object"
  | VObj _ => "object"
  end.

(** [v ? .. : ..], the truthiness test of [if (v)]. *)
Definition truthy (v : value) : bool :=
  match v with
  | VUndef | VNull => false
  | VBool b => b
  | VNum n => negb (PrimFloat.eqb n 0) && PrimFloat.eqb n n
  | VStr s => negb (String.eqb s "")
  | VArr _ | VObj _ => true
  end.

(** [a === b].  Arrays and objects are compared by identity in JavaScript;
    the values here are trees without identity, read out of separately built
    records, and compare unequal. *)
Definition strict_eq (a b : value) : bool :=
  match a, b with
  | VUndef, VUndef => true
  | VNull, VNull => true
  | VBool x, VBool y => Bool.eqb x y
  | VNum x, VNum y => PrimFloat.eqb x y
  | VStr x, VStr y => String.eqb x y
  | _, _ => false
  end.

Fixpoint chars (s : string) : list value :=
  match s with
  | EmptyString => []
  | String c s' => VStr (String c EmptyString) :: chars s'
  end.

Definition indexed (l : list value) : gmap string value :=
  list_to_map (imap (λ i v, (pretty i, v)) l).

(** The properties a list of definitions leaves: a key defined again takes
    the later value. *)
Definition defined (fields : list (string * value)) : gmap string value :=
  foldl (λ m kv, <[kv.1 := kv.2]> m) ∅ fields.

(** The own enumerable properties of a value: what [{...v}] copies and
    [v.key] reads. *)
Definition own_props (v : value) : gmap string value :=
  match v with
  | VObj fields => defined fields
  | VArr l => indexed l
  | VStr s => indexed (chars s)
  | _ => ∅
  end.

(** The number a string of decimal digits reads as. *)
Fixpoint decimal (s : string) (acc : N) : option N :=
  match s with
  | EmptyString => Some acc
  | String c s' =>
      match Ascii.is_nat c with
      | Some d => decimal s' (10 * acc + N.of_nat d)
      | None => None
      end
  end.

(** A key is an array index when it is the canonical decimal form of an
    integer below 2^32 - 1: ["7"] and ["10"] are, ["07"] and ["-1"] are
    not. *)
Definition array_index (key : string) : option N :=
  match decimal key 0 with
  | Some n => if String.eqb (pretty n) key && (n <? 4294967295)%N then Some n else None
  | None => None
  end.

(** The keys in the order they were first defined: a key defined again
    keeps its place. *)
Fixpoint first_defined (keys : list string) : list string :=
  match keys with
  | [] => []
  | k :: keys' => k :: filter (λ k', k' ≠ k) (first_defined keys')
  end.

Fixpoint place (i : N) (k : string) (l : list (N * string)) : list (N * string) :=
  match l with
  | [] => [(i, k)]
  | (j, k') :: l' => if (i <? j)%N then (i, k) :: l else (j, k') :: place i k l'
  end.

Definition ascending (l : list (N * string)) : list (N * string) :=
  foldr (λ ik, place ik.1 ik.2) [] l.

(** The own keys of an object in the order of [Object.keys]: the array
    indices in ascending numeric order, then the other keys in the order they
    were first defined. *)
Definition keys (fields : list (string * value)) : list string :=
  let ks := first_defined fields.*1 in
  (ascending (omap (λ k, (λ i, (i, k)) <$> array_index k) ks)).*2
  ++ filter (λ k, array_index k = None) ks.

(** [Object.keys(v)], each key paired with [v[key]]. *)
Definition entries (v : value) : list (string * value) :=
  match v with
  | VObj fields => (λ k, (k, default VUndef (defined fields !! k))) <$> keys fields
  | VArr l => imap (λ i x, (pretty i, x)) l
  | VStr s => imap (λ i x, (pretty i, x)) (chars s)
  | _ => []
  end.

End JS.

(** ** The store *)

Definition loc := nat.

(** Failures.  [TypeError] is the JavaScript exception raised by a property
    read or a call on [undefined] or [null]; [Unsupported] marks a JavaScript
    behaviour this development does not cover (implicit conversions). *)
Inductive error :=
  | TypeError (msg : string)
  | Unsupported (msg : string).

Inductive result (A : Type) :=
  | Ok (a : A)
  | Throw (e : error).
Arguments Ok {A} a.
Arguments Throw {A} e.

(** Modelled from the spec: the Scene class (core/Scene) is not part of the
    sources.  Of a scene the Stage reads and writes: its property record, with
    [enabled]; the [stage] back-reference; whether it reports changes
    ([hasChanges()], cleared by [resetChanges()]); and the optional attach and
    detach hooks ([addToStage], [removeFromStage]; "absence is valid"). *)
Record Scene := mkScene {
  scene_properties : gmap string value;
  scene_stage : option loc;
  scene_changed : bool;
  scene_addToStage : bool;
  scene_removeFromStage : bool;
}.

(** The buffer a scene's [render(data)] returns. *)
Inductive buffer :=
  | SceneBuffer (scene : loc) (data : value).

Inductive reactor_target :=
  | OnScene (scene : loc)
  | OnElement (scene : loc) (component : string).

(** Calls on collaborators, in program order. *)
Inductive event :=
  | EvEmit (name : string)                                   (* events.emit(name) *)
  | EvRaiseError (msg : string)                              (* raiseError(msg) *)
  | EvLoggerWarn (msg : string) (arg : value)                (* logger.warn(msg, arg) *)
  | EvResetDisplayCount                                      (* resetDisplayCount() *)
  | EvNewRenderer (canvas width height : value)              (* new WebGLRenderer; setSize *)
  | EvNewComposer
  | EvNewCanvasBuffer (width height : value)
  | EvNewGLBuffer (width height : value)
  | EvSceneSetSize (scene : loc) (width height : value)      (* scene.setSize(w, h) *)
  | EvSceneAddToStage (scene : loc) (backref : option loc)   (* scene.addToStage(this) *)
  | EvSceneRemoveFromStage (scene : loc) (backref : option loc)
                                                             (* scene.removeFromStage(this) *)
  | EvSceneRender (scene : loc) (data : value)               (* scene.render(data) *)
  | EvSceneAddElement (scene : loc) (component : string) (properties : value)
  | EvSetReactor (target : reactor_target) (key : string) (reactor : value)
  | EvComposerSetSize (width height : value)
  | EvComposerClear (color : value) (alpha : float)
  | EvComposerBlend (b : buffer) (properties : gmap string value)
  | EvComposerRenderToScreen
  | EvCanvasBufferSetSize (width height : value)
  | EvGLBufferSetSize (width height : value)
  | EvColorSet (color : value).                              (* backgroundColor.set(c) *)

(** What [init] acquires: renderer, composer, canvasBuffer and glBuffer exist,
    and [backgroundColor] holds the resolved colour.  Before [init] all five
    fields are [undefined]. *)
Record Resources := mkResources {
  canvas : value;
  backgroundColor : value;
}.

(** The fields of a Stage object.  [properties] is the address of the property
    record; [scenes] holds the addresses of the owned scenes, in order. *)
Record Stage := mkStage {
  self : loc;
  id : value;
  name : value;
  type : string;
  properties : loc;
  scenes : list loc;
  changed : bool;
  initialized : bool;
  resources : option Resources;
}.

Record World := mkWorld {
  this : Stage;
  records : loc → gmap string value;
  scene_heap : loc → Scene;
  next : loc;
  trace : list event;
}.

(** ** A state and exception monad *)

Definition M (A : Type) : Type := World → result A * World.

#[global] Instance M_ret : MRet M := λ A a w, (Ok a, w).

#[global] Instance M_bind : MBind M := λ A B f m w,
  match m w with
  | (Ok a, w') => f a w'
  | (Throw e, w') => (Throw e, w')
  end.

Definition throw {A} (e : error) : M A := λ w, (Throw e, w).
Definition get : M World := λ w, (Ok w, w).
Definition modify (f : World → World) : M unit := λ w, (Ok tt, f w).

Definition set_this (f : Stage → Stage) (w : World) : World :=
  mkWorld (f (this w)) (records w) (scene_heap w) (next w) (trace w).

Definition set_scenes (l : list loc) (s : Stage) : Stage :=
  mkStage (self s) (id s) (name s) (type s) (properties s) l
          (changed s) (initialized s) (resources s).

Definition set_changed (b : bool) (s : Stage) : Stage :=
  mkStage (self s) (id s) (name s) (type s) (properties s) (scenes s)
          b (initialized s) (resources s).

Definition set_resources (r : Resources) (s : Stage) : Stage :=
  mkStage (self s) (id s) (name s) (type s) (properties s) (scenes s)
          (changed s) true (Some r).

Definition set_record (l : loc) (p : gmap string value) (w : World) : World :=
  mkWorld (this w) (<[l := p]> (records w)) (scene_heap w) (next w) (trace w).

Definition set_scene (l : loc) (s : Scene) (w : World) : World :=
  mkWorld (this w) (records w) (<[l := s]> (scene_heap w)) (next w) (trace w).

Definition bump (w : World) : World :=
  mkWorld (this w) (records w) (scene_heap w) (S (next w)) (trace w).

Definition record_event (e : event) (w : World) : World :=
  mkWorld (this w) (records w) (scene_heap w) (next w) (trace w ++ [e]).

Definition log (e : event) : M unit := modify (record_event e).

(** [new]: the next free address. *)
Definition alloc : M loc := λ w, (Ok (next w), bump w).

(** [l.forEach(f)]: an exception thrown by [f] ends the loop. *)
Fixpoint forEach {A} (l : list A) (f : A → M unit) : M unit :=
  match l with
  | [] => mret tt
  | x :: l' => f x ;; forEach l' f
  end.

(** [v.key], for a key that is not a method or [length]. *)
Definition get_field (v : value) (key : string) : M value :=
  match v with
  | VUndef =>
      throw (TypeError ("Cannot read properties of undefined (reading '" +:+ key +:+ "')"))
  | VNull =>
      throw (TypeError ("Cannot read properties of null (reading '" +:+ key +:+ "')"))
  | _ => mret (default VUndef (JS.own_props v !! key))
  end.

(** [v.forEach(f)]: only arrays have the method. *)
Definition js_forEach (v : value) (f : value → M unit) : M unit :=
  match v with
  | VArr l => forEach l f
  | VUndef => throw (TypeError "Cannot read properties of undefined (reading 'forEach')")
  | VNull => throw (TypeError "Cannot read properties of null (reading 'forEach')")
  | _ => throw (TypeError "forEach is not a function")
  end.

(** [Object.keys(v)] paired with [v[key]]: the keys come in the order of
    [Object.keys]. *)
Definition js_entries (v : value) : M (list (string * value)) :=
  match v with
  | VUndef | VNull => throw (TypeError "Cannot convert undefined or null to object")
  | _ => mret (JS.entries v)
  end.

(** ** utils/array *)

Module array.

(** [arr.indexOf(x)]: the first index holding [x], or -1. *)
Fixpoint indexOf (arr : list loc) (x : loc) : Z :=
  match arr with
  | [] => -1
  | y :: arr' =>
      if decide (y = x) then 0
      else let i := indexOf arr' x in if (i <? 0)%Z then (-1)%Z else (i + 1)%Z
  end.

(** [arr.splice(index, 0, obj)]: a negative index counts from the end, and
    an index past either end is clamped. *)
Definition splice_in (arr : list loc) (index : Z) (obj : loc) : list loc :=
  let n := Z.of_nat (length arr) in
  let i := if (index <? 0)%Z then Z.max (n + index) 0 else Z.min index n in
  take (Z.to_nat i) arr ++ obj :: drop (Z.to_nat i) arr.

(** Modelled from the spec: utils/array is not part of the sources.
    [insert(arr, index, obj)] has "insert semantics: existing elements
    at/after index shift later". *)
Definition insert (arr : list loc) (index : Z) (obj : loc) : list loc :=
  splice_in arr index obj.

(** Modelled from the spec: utils/array is not part of the sources.
    [remove(arr, obj)] "removes by identity from the ordered sequence": the
    first slot holding [obj] is taken out, and nothing happens when there is
    none. *)
Fixpoint remove (arr : list loc) (obj : loc) : list loc :=
  match arr with
  | [] => []
  | y :: arr' => if decide (y = obj) then arr' else y :: remove arr' obj
  end.

(** Modelled from the spec: utils/array is not part of the sources.
    [swap(arr, a, b)] exchanges the elements at [a] and [b]; "a swap with an
    out-of-range target is a no-op". *)
Definition swap (arr : list loc) (a b : Z) : list loc :=
  let n := Z.of_nat (length arr) in
  if ((0 <=? a) && (a <? n) && (0 <=? b) && (b <? n))%Z then
    match arr !! Z.to_nat a, arr !! Z.to_nat b with
    | Some x, Some y => <[Z.to_nat b := x]> (<[Z.to_nat a := y]> arr)
    | _, _ => arr
    end
  else arr.

End array.

(** ** The Stage class *)

Module Stage.

Section Methods.

(** 'view/constants', 'displays', 'effects' and the defaults of the Scene
    class are not part of the sources: the development is parametric in them.
    A library answers whether it exports a component of a given name. *)
Variables CANVAS_WIDTH CANVAS_HEIGHT : float.
Variable DISPLAY_TYPE_STAGE : string.
Variables displayLibrary effectsLibrary : string → bool.
Variable Scene_defaultProperties : gmap string value.

(** [static defaultProperties] *)
Definition defaultProperties : gmap string value :=
  <["width" := VNum CANVAS_WIDTH]>
  (<["height" := VNum CANVAS_HEIGHT]>
  (<["zoom" := VNum 1.0%float]>
  (<["backgroundColor" := VStr "#000000"]> ∅))).

(** [Stage.defaultProperties] as the object the class declares, its keys in
    the order of the declaration. *)
Definition defaultProperties_object : value :=
  VObj [("width", VNum CANVAS_WIDTH); ("height", VNum CANVAS_HEIGHT);
        ("zoom", VNum 1.0%float); ("backgroundColor", VStr "#000000")].

Definition prop (r : gmap string value) (key : string) : value :=
  default VUndef (r !! key).

(** [this.properties], read through the store. *)
Definition this_properties (w : World) : gmap string value :=
  records w (properties (this w)).

(** The [id] and the [name] the constructor of Display gives to the object
    it builds at an address: "identity, assigned externally, immutable after
    creation".  The constructor receives the class and the properties and
    nothing else; the development is parametric in what it assigns. *)
Variables Display_id Display_name : loc → value.

(** Modelled from the spec: the constructor of Display (core/Display) is not
    part of the sources.  [super(Stage, properties)] assigns [id] and [name]
    to the new object and builds [properties], a record of the class, here
    the defaults the subclass hands to [super] overridden by the keys
    provided.  The constructor of Stage then sets [scenes], [initialized] and
    [type]. *)
Definition constructor (p : value) : M unit :=
  l ← alloc;
  modify (set_record l (JS.own_props p ∪ defaultProperties));;
  s ← alloc;
  modify (set_this (λ _, mkStage s (Display_id s) (Display_name s) DISPLAY_TYPE_STAGE l []
                           false false None)).

(** [this.composer], [this.canvasBuffer], [this.glBuffer],
    [this.backgroundColor]: reading a property of one of them before [init]
    is a read on [undefined]. *)
Definition resource (method : string) : M Resources :=
  w ← get;
  match resources (this w) with
  | Some r => mret r
  | None => throw (TypeError ("Cannot read properties of undefined (reading '" +:+ method +:+ "')"))
  end.

Definition init (canvas0 : value) : M unit :=
  w ← get;
  if initialized (this w) then mret tt
  else
    let width := prop (this_properties w) "width" in
    let height := prop (this_properties w) "height" in
    let color := prop (this_properties w) "backgroundColor" in
    log (EvNewRenderer canvas0 width height);;
    log EvNewComposer;;
    log (EvNewCanvasBuffer width height);;
    log (EvNewGLBuffer width height);;
    modify (set_this (set_resources (mkResources canvas0 color))).

Definition setSize (width height : value) : M unit :=
  w ← get;
  forEach (scenes (this w)) (λ scene, log (EvSceneSetSize scene width height));;
  resource "setSize";;
  log (EvComposerSetSize width height);;
  resource "setSize";;
  log (EvCanvasBufferSetSize width height);;
  resource "setSize";;
  log (EvGLBufferSetSize width height);;
  log (EvEmit "stage-resize").

(** Modelled from the spec: Display.update (core/Display) is not part of the
    sources.  It "accepts a partial property record", "applies only the
    provided keys" and "returns whether any property actually changed, using
    per-field equality; no-op updates must not mark the Stage dirty" (a change
    "participates in change tracking"). *)
Definition Display_update (p : value) : M bool :=
  w ← get;
  let cur := this_properties w in
  let delta := filter (λ kv, JS.strict_eq (prop cur kv.1) kv.2 = false) (JS.own_props p) in
  match map_to_list delta with
  | [] => mret false
  | _ =>
      modify (set_record (properties (this w)) (delta ∪ cur));;
      modify (set_this (set_changed true));;
      mret true
  end.

Definition update (p : value) : M bool :=
  changed0 ← Display_update p;
  (if changed0 : bool then
     pw ← get_field p "width";
     ph ← get_field p "height";
     (if negb (JS.strict_eq pw VUndef) || negb (JS.strict_eq ph VUndef) then
        w ← get;
        setSize (prop (this_properties w) "width") (prop (this_properties w) "height")
      else mret tt);;
     pb ← get_field p "backgroundColor";
     (if negb (JS.strict_eq pb VUndef) then
        r ← resource "set";
        log (EvColorSet pb);;
        modify (set_this (set_resources (mkResources (canvas r) pb)))
      else mret tt)
   else mret tt);;
  mret changed0.

(** Modelled from the spec: [new Scene(properties)] (core/Scene) is not part
    of the sources.  A new scene holds the class defaults overridden by the
    keys provided, belongs to no stage, and has both hooks of the class. *)
Definition Scene_new (p : value) : M loc :=
  l ← alloc;
  modify (set_scene l (mkScene (JS.own_props p ∪ Scene_defaultProperties) None false true true));;
  mret l.

Definition set_scene_stage (o : option loc) (s : Scene) : Scene :=
  mkScene (scene_properties s) o (scene_changed s)
          (scene_addToStage s) (scene_removeFromStage s).

Definition set_scene_changed (b : bool) (s : Scene) : Scene :=
  mkScene (scene_properties s) (scene_stage s) b
          (scene_addToStage s) (scene_removeFromStage s).

(** [addScene(scene = new Scene(), index)]: [None] stands for an argument
    left out ([undefined]). *)
Definition addScene (scene : option loc) (index : option Z) : M loc :=
  scene ← match scene with Some s => mret s | None => Scene_new VUndef end;
  w ← get;
  (match index with
   | Some i => modify (set_this (set_scenes (array.insert (scenes (this w)) i scene)))
   | None => modify (set_this (set_scenes (scenes (this w) ++ [scene])))
   end);;
  modify (set_scene scene (set_scene_stage (Some (self (this w))) (scene_heap w scene)));;
  w ← get;
  (if scene_addToStage (scene_heap w scene)
   then log (EvSceneAddToStage scene (scene_stage (scene_heap w scene)))
   else mret tt);;
  modify (set_this (set_changed true));;
  mret scene.

(** The detach hook is called without a test: a scene without one makes the
    call a [TypeError].  The event keeps what [scene.stage] holds when the
    hook starts. *)
Definition removeScene (scene : loc) : M unit :=
  w ← get;
  modify (set_this (set_scenes (array.remove (scenes (this w)) scene)));;
  modify (set_scene scene (set_scene_stage None (scene_heap w scene)));;
  w ← get;
  (if scene_removeFromStage (scene_heap w scene)
   then log (EvSceneRemoveFromStage scene (scene_stage (scene_heap w scene)))
   else throw (TypeError "scene.removeFromStage is not a function"));;
  modify (set_this (set_changed true)).

Definition shiftScene (scene : loc) (i : Z) : M bool :=
  w ← get;
  let index := array.indexOf (scenes (this w)) scene in
  modify (set_this (set_scenes (array.swap (scenes (this w)) index (index + i))));;
  w ← get;
  let moved := negb (array.indexOf (scenes (this w)) scene =? index)%Z in
  modify (set_this (set_changed moved));;
  mret moved.

Definition clearScenes : M unit :=
  w ← get;
  forEach (scenes (this w)) removeScene;;
  log EvResetDisplayCount;;
  modify (set_this (set_changed true)).

(** Modelled from the spec: [scene.hasChanges()] (core/Scene) reads whether
    the scene reports changes and has no effect. *)
Definition Scene_hasChanges (scene : loc) : M bool :=
  w ← get; mret (scene_changed (scene_heap w scene)).

(** Modelled from the spec: [scene.resetChanges()] (core/Scene) leaves the
    scene reporting no change. *)
Definition Scene_resetChanges (scene : loc) : M unit :=
  w ← get; modify (set_scene scene (set_scene_changed false (scene_heap w scene))).

(** The loop body of [hasChanges]: the scene is asked only while [changes]
    is still false. *)
Fixpoint hasChanges_scan (l : list loc) (changes : bool) : M bool :=
  match l with
  | [] => mret changes
  | scene :: l' =>
      changes ←
        (if negb changes
         then c ← Scene_hasChanges scene; mret (if c : bool then true else changes)
         else mret changes);
      hasChanges_scan l' changes
  end.

Definition hasChanges : M bool :=
  w ← get;
  if changed (this w) then mret true
  else hasChanges_scan (scenes (this w)) false.

Definition resetChanges : M unit :=
  modify (set_this (set_changed false));;
  w ← get;
  forEach (scenes (this w)) Scene_resetChanges.

(** The number a zoom value stands for; values other than numbers would go
    through JavaScript's implicit conversions, which are left out. *)
Definition as_number (v : value) : M float :=
  match v with
  | VNum n => mret n
  | _ => throw (Unsupported "implicit conversion to a number")
  end.

Definition setZoom (val : float) : M unit :=
  w ← get;
  let zoom := prop (this_properties w) "zoom" in
  (if PrimFloat.ltb 0 val then
     z ← as_number zoom;
     if PrimFloat.ltb z 1.0
     then update (VObj [("zoom", VNum (PrimFloat.add z 0.25))]);; mret tt
     else mret tt
   else if PrimFloat.ltb val 0 then
     z ← as_number zoom;
     if PrimFloat.ltb 0.25 z
     then update (VObj [("zoom", VNum (PrimFloat.sub z 0.25))]);; mret tt
     else mret tt
   else update (VObj [("zoom", VNum 1.0)]);; mret tt);;
  log (EvEmit "zoom").

(** [lib[name]]: the key a name is converted to. *)
Definition to_key (v : value) : M string :=
  match v with
  | VStr s => mret s
  | VUndef => mret "undefined"
  | VNull => mret "null"
  | VBool true => mret "true"
  | VBool false => mret "false"
  | _ => throw (Unsupported "implicit conversion to a property key")
  end.

(** [element.setReactor(key, reactors[key])] for every key of the record, in
    the order of [Object.keys(reactors)]. *)
Definition loadReactors (reactors : value) (element : reactor_target) : M unit :=
  kvs ← js_entries reactors;
  forEach kvs (λ kv, log (EvSetReactor element kv.1 kv.2)).

Definition loadComponent (lib : string → bool) (newScene : loc) (component : value) : M unit :=
  name0 ← get_field component "name";
  p ← get_field component "properties";
  reactors ← get_field component "reactors";
  key ← to_key name0;
  if lib key then
    log (EvSceneAddElement newScene key p);;
    (if JS.truthy reactors then loadReactors reactors (OnElement newScene key) else mret tt)
  else log (EvLoggerWarn "Component not found:" name0).

(** The body of [config.scenes.forEach]. *)
Definition loadScene (scene : value) : M unit :=
  p ← get_field scene "properties";
  newScene ← Scene_new p;
  addScene (Some newScene) None;;
  displays ← get_field scene "displays";
  (if JS.truthy displays
   then js_forEach displays (loadComponent displayLibrary newScene) else mret tt);;
  effects ← get_field scene "effects";
  (if JS.truthy effects
   then js_forEach effects (loadComponent effectsLibrary newScene) else mret tt);;
  reactors ← get_field scene "reactors";
  (if JS.truthy reactors then loadReactors reactors (OnScene newScene) else mret tt).

Definition loadConfig (config : value) : M unit :=
  if String.eqb (JS.typeof config) "object" then
    clearScenes;;
    config_scenes ← get_field config "scenes";
    (if JS.truthy config_scenes then js_forEach config_scenes loadScene else mret tt);;
    config_stage ← get_field config "stage";
    (if JS.truthy config_stage then
       p ← get_field config_stage "properties";
       update p;; mret tt
     else update defaultProperties_object;; mret tt)
  else log (EvRaiseError "Invalid project data.").

(** The object [toJSON] returns; [json_properties] is the address of the
    record the spread [{ ...properties }] builds. *)
Record StageJSON := mkStageJSON {
  json_id : value;
  json_name : value;
  json_type : string;
  json_properties : loc;
}.

Definition toJSON : M StageJSON :=
  w ← get;
  l ← alloc;
  modify (set_record l (this_properties w));;
  mret (mkStageJSON (id (this w)) (name (this w)) (type (this w)) l).

Definition renderScene (scene : loc) (data : value) : M unit :=
  log (EvSceneRender scene data);;
  let buffer0 := SceneBuffer scene data in
  resource "blendBuffer";;
  w ← get;
  log (EvComposerBlend buffer0 (scene_properties (scene_heap w scene))).

Definition scene_enabled (w : World) (scene : loc) : bool :=
  JS.truthy (prop (scene_properties (scene_heap w scene)) "enabled").

Definition render (data : value) : M unit :=
  w ← get;
  r ← resource "clear";
  log (EvComposerClear (backgroundColor r) 1);;
  forEach (scenes (this w))
    (λ scene, w ← get; if scene_enabled w scene then renderScene scene data else mret tt);;
  resource "renderToScreen";;
  log EvComposerRenderToScreen.

(** [hasScenes()] *)
Definition hasScenes : M bool :=
  w ← get; mret (0 <? length (scenes (this w)))%nat.

(** The [id] a scene object carries.  It is set when the scene is built, by
    code of core/Display that is not part of the sources, and never written
    by the Stage: the development is parametric in it. *)
Variable scene_id : loc → value.

(** [getScene(id)]: [find] answers the first scene whose id is [id], or
    [undefined] ([None]). *)
Definition getScene (id0 : value) : M (option loc) :=
  w ← get;
  mret (List.find (λ n, JS.strict_eq (scene_id n) id0) (scenes (this w))).

(** [scene.getElementById(id)] (core/Scene) is not part of the sources: the
    development is parametric in the elements a scene holds and in the query,
    which answers an element or nothing (a falsy value). *)
Variable element : Type.
Variable Scene_getElementById : loc → value → option element.

(** [getElementById(id)]: the [reduce] starts from [getScene(id)] and asks a
    scene only while nothing was found. *)
Definition getElementById (id0 : value) : M (option (loc + element)) :=
  root ← getScene id0;
  w ← get;
  mret (foldl (λ found scene,
                 match found with
                 | Some e => Some e
                 | None => inr <$> Scene_getElementById scene id0
                 end)
              (inl <$> root) (scenes (this w))).

End Methods.

End Stage.

(** * Vocabulary of the statements *)

(** ** Traces *)

(** What [setSize] records after the scenes were resized. *)
Definition resize_events (width height : value) : list event :=
  [EvComposerSetSize width height;
   EvCanvasBufferSetSize width height;
   EvGLBufferSetSize width height;
   EvEmit "stage-resize"].

(** What rendering one enabled scene records. *)
Definition scene_pass (w : World) (data : value) (scene : loc) : list event :=
  [EvSceneRender scene data;
   EvComposerBlend (SceneBuffer scene data) (scene_properties (scene_heap w scene))].

(** The buffers handed to the composer's blend step, in order. *)
Fixpoint blended (t : list event) : list buffer :=
  match t with
  | [] => []
  | EvComposerBlend b _ :: t' => b :: blended t'
  | _ :: t' => blended t'
  end.

(** The scene store after [resetChanges] was called on the scenes of [l]. *)
Definition reset_all (l : list loc) (heap : loc → Scene) : loc → Scene :=
  foldl (λ h scene, <[scene := Stage.set_scene_changed false (h scene)]> h) heap l.

(** ** Zoom *)

(** [this.properties.zoom] *)
Definition zoom_of (w : World) : value :=
  Stage.prop (Stage.this_properties w) "zoom".

(** The zoom levels: 0.25, 0.5, 0.75 and 1.0. *)
Definition zoom_level (z : float) : Prop :=
  z = 0.25%float ∨ z = 0.5%float ∨ z = 0.75%float ∨ z = 1%float.

(** [n] calls in a row. *)
Fixpoint repeatM (n : nat) (m : M unit) : M unit :=
  match n with
  | O => mret tt
  | S n' => m ;; repeatM n' m
  end.

(** The zoom a record holds after [update({ zoom: z' })] when it held [z]:
    a value equal to the old one is not written. *)
Definition settle (z z' : float) : float :=
  if PrimFloat.eqb z z' then z else z'.

(** The zoom after [setZoom(val)], by the outcome of the tests [val > 0] and
    [val < 0]. *)
Definition zoom_after (up down : bool) (z : float) : float :=
  if up then (if PrimFloat.ltb z 1 then settle z (PrimFloat.add z 0.25) else z)
  else if down then (if PrimFloat.ltb 0.25 z then settle z (PrimFloat.sub z 0.25) else z)
  else settle z 1.

(** One level up, unless at the top; one level down, unless at the bottom. *)
Definition step_up (z : float) : float :=
  if PrimFloat.ltb z 1 then PrimFloat.add z 0.25 else z.

Definition step_down (z : float) : float :=
  if PrimFloat.ltb 0.25 z then PrimFloat.sub z 0.25 else z.

Fixpoint iterate (n : nat) (f : float → float) (z : float) : float :=
  match n with
  | O => z
  | S n' => iterate n' f (f z)
  end.

(** ** Constructed stages *)

(** What holds of every Stage the constructor builds: its type tag is the
    constant of the class, its property record defines every default key, and
    the record was allocated before the next free address. *)
Definition constructed (CANVAS_WIDTH CANVAS_HEIGHT : float)
    (DISPLAY_TYPE_STAGE : string) (w : World) : Prop :=
  type (this w) = DISPLAY_TYPE_STAGE ∧
  (∀ key, is_Some (Stage.defaultProperties CANVAS_WIDTH CANVAS_HEIGHT !! key) →
          is_Some (Stage.this_properties w !! key)) ∧
  properties (this w) < next w.

(** ** Concrete stages *)

(** Sample values for the constants of 'view/constants', and component
    libraries that export nothing. *)
Definition sample_width : float := 854.
Definition sample_height : float := 480.
Definition no_library (component : string) : bool := false.

Definition sample_load : value → M unit :=
  Stage.loadConfig sample_width sample_height no_library no_library ∅.

Definition hidden_scene : Scene :=
  mkScene {["enabled" := VBool false]} (Some 0) false true true.

Definition shown_scene : Scene :=
  mkScene {["enabled" := VBool true]} (Some 0) true true true.

(** An initialised Stage at address 0 with the default properties (record at
    address 1), owning a disabled scene (address 2) followed by an enabled
    one (address 3). *)
Definition demo_stage : World :=
  mkWorld (mkStage 0 (VStr "stage-1") (VStr "Stage") "stage" 1 [2; 3] false true
             (Some (mkResources (VStr "canvas") (VStr "#000000"))))
          (λ _, Stage.defaultProperties sample_width sample_height)
          (λ l, if decide (l = 2) then hidden_scene else shown_scene) 4 [].

(** The same Stage zoomed out to 0.25. *)
Definition quarter_stage : World :=
  set_record 1 (<["zoom" := VNum 0.25]> (Stage.defaultProperties sample_width sample_height))
             demo_stage.

(** The same Stage before [init], and dirty: as after two calls of
    [addScene]. *)
Definition dirty_stage : World :=
  mkWorld (mkStage 0 (VStr "stage-1") (VStr "Stage") "stage" 1 [2; 3] true false None)
          (λ _, Stage.defaultProperties sample_width sample_height)
          (λ l, if decide (l = 2) then hidden_scene else shown_scene) 4 [].





(** ** Loading, frames and further concrete stages *)

(** The scene store after the scenes of [l] lost their back-reference. *)
Definition detach_all (l : list loc) (heap : loc → Scene) : loc → Scene :=
  foldl (λ h scene, <[scene := Stage.set_scene_stage None (h scene)]> h) heap l.

(** The calls [loadReactors] makes for a record of reactors, when the record
    is there (truthy): one per key, in the order of [Object.keys]. *)
Definition reactor_events (target : reactor_target) (reactors : value) : list event :=
  if JS.truthy reactors
  then map (λ kv, EvSetReactor target kv.1 kv.2) (JS.entries reactors)
  else [].

(** What loading one component description records: the element added and
    its reactors set when the library exports the name, a warning
    otherwise. *)
Definition component_events (lib : string → bool) (scene : loc) (c : value) : list event :=
  match Stage.prop (JS.own_props c) "name" with
  | VStr n =>
      if lib n
      then EvSceneAddElement scene n (Stage.prop (JS.own_props c) "properties")
           :: reactor_events (OnElement scene n) (Stage.prop (JS.own_props c) "reactors")
      else [EvLoggerWarn "Component not found:" (VStr n)]
  | other => [EvLoggerWarn "Component not found:" other]
  end.

(** A component description: an object whose [name] is a string. *)
Definition named_component (c : value) : Prop :=
  ∃ fields n, c = VObj fields ∧ JS.defined fields !! "name" = Some (VStr n).

(** A computation that, whether it succeeds or throws, leaves the scene
    list, the scene store and the allocator as they were and only adds to
    the trace. *)
Definition keeps_scenes {A} (m : M A) : Prop :=
  ∀ w, scenes (this (m w).2) = scenes (this w) ∧
       scene_heap (m w).2 = scene_heap w ∧
       next (m w).2 = next w ∧
       ∃ t, trace (m w).2 = trace w ++ t.

(** A list of components a scene description may carry: none (a falsy
    value), or an array of component descriptions. *)
Definition components_ok (v : value) : Prop :=
  JS.truthy v = false ∨ ∃ cs, v = VArr cs ∧ Forall named_component cs.

(** A scene description: an object whose [displays] and [effects] are lists
    of components. *)
Definition scene_ok (c : value) : Prop :=
  ∃ fields, c = VObj fields ∧
       components_ok (Stage.prop (JS.defined fields) "displays") ∧
       components_ok (Stage.prop (JS.defined fields) "effects").

Definition components_events (lib : string → bool) (scene : loc) (v : value) : list event :=
  match v with
  | VArr cs => flat_map (component_events lib scene) cs
  | _ => []
  end.

(** The scene object built for a scene description and attached to the
    Stage at [self0]; [defaults] are the defaults of the Scene class. *)
Definition scene_record (defaults : gmap string value) (self0 : loc) (c : value) : Scene :=
  mkScene (JS.own_props (Stage.prop (JS.own_props c) "properties") ∪ defaults)
          (Some self0) false true true.

(** What loading one scene description at address [a] records. *)
Definition scene_events (displayLibrary effectsLibrary : string → bool)
    (self0 a : loc) (c : value) : list event :=
  EvSceneAddToStage a (Some self0)
  :: components_events displayLibrary a (Stage.prop (JS.own_props c) "displays")
  ++ components_events effectsLibrary a (Stage.prop (JS.own_props c) "effects")
  ++ reactor_events (OnScene a) (Stage.prop (JS.own_props c) "reactors").

(** What loading scene descriptions at the addresses from [a] on records. *)
Fixpoint scenes_events (displayLibrary effectsLibrary : string → bool)
    (self0 a : loc) (cs : list value) : list event :=
  match cs with
  | [] => []
  | c :: cs' =>
      scene_events displayLibrary effectsLibrary self0 a c
      ++ scenes_events displayLibrary effectsLibrary self0 (S a) cs'
  end.

(** [demo_stage] with a first scene that has no hooks. *)
Definition bare_stage : World :=
  mkWorld (this demo_stage) (records demo_stage)
          (λ l, if decide (l = 2) then mkScene ∅ (Some 0) false false false
                else shown_scene)
          4 [].

(** A library that exports one display. *)
Definition sample_library (component : string) : bool :=
  String.eqb component "BarSpectrumDisplay".

(** Two component descriptions: one the library exports, with reactors for
    the keys [b] and [a] in this order, and one it does not export. *)
Definition sample_components : list value :=
  [VObj [("name", VStr "BarSpectrumDisplay");
         ("reactors", VObj [("b", VNum 1); ("a", VNum 2)])];
   VObj [("name", VStr "Nope")]].

(** A configuration with two scenes and no stage block. *)
Definition sample_scenes : list value :=
  [VObj [("properties", VObj [("enabled", VBool true)]);
         ("displays", VArr sample_components)];
   VObj []].

Definition sample_config : value :=
  VObj [("scenes", VArr sample_scenes)].

(** Scene ids by address. *)
Definition sample_id (scene : loc) : value :=
  VStr (if decide (scene = 2) then "scene-2"
        else if decide (scene = 3) then "scene-3" else "scene-5").

(** A computation that writes no property record but the Stage's own, and
    does not move the Stage to another record. *)
Definition writes_own_record {A} (m : M A) : Prop :=
  ∀ w, properties (this (m w).2) = properties (this w) ∧
       ∀ l, l ≠ properties (this w) → records (m w).2 l = records w l.

(** * Properties *)

(** ** Running monadic code *)

Lemma bind_ok {A B} (m : M A) (f : A → M B) (w w' : World) (a : A) :
  m w = (Ok a, w') → (m ≫= f) w = f a w'.
Proof. intros H. unfold mbind, M_bind. by rewrite H. Qed.

Lemma bind_throw {A B} (m : M A) (f : A → M B) (w w' : World) (e : error) :
  m w = (Throw e, w') → (m ≫= f) w = (Throw e, w').
Proof. intros H. unfold mbind, M_bind. by rewrite H. Qed.

Lemma mret_bind {A B} (a : A) (f : A → M B) (w : World) :
  (mret a ≫= f) w = f a w.
Proof. reflexivity. Qed.

Lemma get_bind {B} (f : World → M B) (w : World) :
  (get ≫= f) w = f w w.
Proof. reflexivity. Qed.

(** A loop whose body only records an event appends one event per element. *)
Lemma forEach_log {A} (l : list A) (ev : A → event) (w : World) :
  forEach l (λ x, log (ev x)) w =
  (Ok tt, mkWorld (this w) (records w) (scene_heap w) (next w) (trace w ++ map ev l)).
Proof.
  revert w. induction l as [|x l IH]; intros w; simpl.
  - rewrite app_nil_r. by destruct w.
  - unfold mbind, M_bind, log, modify. rewrite IH. simpl.
    by rewrite <- app_assoc.
Qed.

(** ** utils/array *)

Lemma indexOf_first (l : list loc) (x : loc) (n : nat) :
  l !! n = Some x → (∀ k, (k < n)%nat → l !! k ≠ Some x) →
  array.indexOf l x = Z.of_nat n.
Proof.
  revert n. induction l as [|y l IH]; intros n Hn Hfirst; [done|].
  simpl. destruct n as [|n].
  - simpl in Hn. injection Hn as ->. by rewrite decide_True.
  - rewrite decide_False.
    + rewrite (IH n); [|done|].
      * destruct (Z.ltb_spec (Z.of_nat n) 0); lia.
      * intros k Hk. apply (Hfirst (S k)). lia.
    + intros ->. by apply (Hfirst 0%nat); [lia|].
Qed.

Lemma indexOf_elem (l : list loc) (x : loc) :
  x ∈ l →
  ∃ n, array.indexOf l x = Z.of_nat n ∧ l !! n = Some x ∧
       ∀ k, (k < n)%nat → l !! k ≠ Some x.
Proof.
  induction l as [|y l IH]; intros Hin; [by apply elem_of_nil in Hin|].
  simpl. destruct (decide (y = x)) as [->|Hne].
  - exists 0%nat. split_and!; [done|done|intros; lia].
  - apply elem_of_cons in Hin as [->|Hin]; [done|].
    destruct (IH Hin) as (n & -> & Hn & Hfirst).
    exists (S n). split_and!.
    + destruct (Z.ltb_spec (Z.of_nat n) 0); lia.
    + done.
    + intros [|k] Hk; simpl; [congruence|]. apply Hfirst. lia.
Qed.

Lemma indexOf_bounds (l : list loc) (x : loc) :
  (-1 ≤ array.indexOf l x < Z.of_nat (length l))%Z.
Proof.
  induction l as [|y l IH]; simpl; [lia|].
  destruct (decide (y = x)); [lia|].
  destruct (Z.ltb_spec (array.indexOf l x) 0); lia.
Qed.

Lemma swap_out_of_range (l : list loc) (a b : Z) :
  ¬ (0 ≤ b < Z.of_nat (length l))%Z → array.swap l a b = l.
Proof.
  intros Hb. unfold array.swap.
  destruct (Z.leb_spec 0 b), (Z.ltb_spec b (Z.of_nat (length l)));
    rewrite ?andb_false_r; try done; lia.
Qed.

Lemma swap_in_range (l : list loc) (i j : nat) (x y : loc) :
  l !! i = Some x → l !! j = Some y →
  array.swap l (Z.of_nat i) (Z.of_nat j) = <[j := x]> (<[i := y]> l).
Proof.
  intros Hi Hj. unfold array.swap.
  pose proof (lookup_lt_Some _ _ _ Hi). pose proof (lookup_lt_Some _ _ _ Hj).
  rewrite !Nat2Z.id, Hi, Hj.
  destruct (Z.leb_spec 0 (Z.of_nat i)); [|lia].
  destruct (Z.ltb_spec (Z.of_nat i) (Z.of_nat (length l))); [|lia].
  destruct (Z.leb_spec 0 (Z.of_nat j)); [|lia].
  destruct (Z.ltb_spec (Z.of_nat j) (Z.of_nat (length l))); [|lia].
  done.
Qed.

Lemma remove_elem (l : list loc) (x : loc) :
  x ∈ l → ∃ l1 l2, (l = l1 ++ x :: l2) ∧ (x ∉ l1) ∧ (array.remove l x = l1 ++ l2).
Proof.
  induction l as [|y l IH]; intros Hin; [by apply elem_of_nil in Hin|].
  simpl. destruct (decide (y = x)) as [->|Hne].
  - exists [], l. split_and!; [done| |done]. apply not_elem_of_nil.
  - apply elem_of_cons in Hin as [->|Hin]; [done|].
    destruct (IH Hin) as (l1 & l2 & -> & Hnin & ->).
    exists (y :: l1), l2. split_and!; [done| |done].
    apply not_elem_of_cons. auto.
Qed.

(** ** shiftScene *)

(** What one call computes: the swap, then the flag, then the answer. *)
Lemma shiftScene_run (w : World) (scene : loc) (i : Z) :
  let index := array.indexOf (scenes (this w)) scene in
  let l' := array.swap (scenes (this w)) index (index + i) in
  let moved := negb (array.indexOf l' scene =? index)%Z in
  Stage.shiftScene scene i w =
  (Ok moved, set_this (set_changed moved) (set_this (set_scenes l') w)).
Proof. reflexivity. Qed.

(** A scene the Stage owns, shifted to a target inside the sequence, trades
    places with the scene stored there; when no scene is stored twice and the
    target is another slot, the scene's first index becomes the target and
    the call answers true. *)
Lemma shiftScene_in_range (w : World) (scene other : loc) (i : Z) (n m : nat) :
  array.indexOf (scenes (this w)) scene = Z.of_nat n →
  scenes (this w) !! n = Some scene →
  (Z.of_nat n + i)%Z = Z.of_nat m →
  scenes (this w) !! m = Some other →
  ∃ w', Stage.shiftScene scene i w =
          (Ok (negb (array.indexOf (scenes (this w')) scene =? Z.of_nat n)%Z), w') ∧
        scenes (this w') = <[m := scene]> (<[n := other]> (scenes (this w))) ∧
        (NoDup (scenes (this w)) → n ≠ m →
         array.indexOf (scenes (this w')) scene = Z.of_nat m ∧
         changed (this w') = true).
Proof.
  intros Hidx Hn Hm Hother. rewrite shiftScene_run. cbv zeta.
  rewrite Hidx, Hm, (swap_in_range _ n m scene other) by done.
  eexists (set_this (set_changed _) (set_this (set_scenes _) w)).
  split; [reflexivity|]. split; [reflexivity|].
  intros Hnodup Hnm. simpl.
  pose proof (lookup_lt_Some _ _ _ Hn) as Hnlt.
  pose proof (lookup_lt_Some _ _ _ Hother) as Hmlt.
  assert (array.indexOf (<[m:=scene]> (<[n:=other]> (scenes (this w)))) scene
          = Z.of_nat m) as Hnew.
  { apply indexOf_first.
    - apply list_lookup_insert_eq. by rewrite length_insert.
    - intros k Hk Hlook.
      rewrite list_lookup_insert_ne in Hlook by lia.
      destruct (decide (k = n)) as [->|Hkn].
      + rewrite list_lookup_insert_eq in Hlook by done.
        injection Hlook as ->.
        by apply Hnm, (NoDup_lookup _ _ _ scene Hnodup).
      + rewrite list_lookup_insert_ne in Hlook by done.
        by apply Hkn, (NoDup_lookup _ _ _ scene Hnodup). }
  rewrite Hnew. split; [done|].
  destruct (Z.eqb_spec (Z.of_nat m) (Z.of_nat n)); [lia|done].
Qed.

(** A target outside the sequence leaves the order as it is, answers false
    and leaves the flag false. *)
Lemma shiftScene_out_of_range (w : World) (scene : loc) (i : Z) :
  ¬ (0 ≤ array.indexOf (scenes (this w)) scene + i
       < Z.of_nat (length (scenes (this w))))%Z →
  Stage.shiftScene scene i w =
  (Ok false, set_this (set_changed false) (set_this (set_scenes (scenes (this w))) w)).
Proof.
  intros Hout. rewrite shiftScene_run. cbv zeta.
  rewrite swap_out_of_range by done. by rewrite Z.eqb_refl.
Qed.

(** C2 (the code departs from the claim): on [dirty_stage], shifting the
    last scene one slot further has a target outside the sequence.  The order
    is unchanged and the call answers false, but the call is not without
    effect: the dirty flag, true before the call, is false after it. *)
Theorem shiftScene_out_of_range_clears_dirty :
  (Stage.shiftScene 3 1 dirty_stage).1 = Ok false ∧
  scenes (this dirty_stage) = [2; 3] ∧
  scenes (this (Stage.shiftScene 3 1 dirty_stage).2) = [2; 3] ∧
  changed (this dirty_stage) = true ∧
  changed (this (Stage.shiftScene 3 1 dirty_stage).2) = false.
Proof. by vm_compute. Qed.

(** C9: after every call of [shiftScene] the flag [changed] holds the boolean
    the call returned, whatever it held before; the boolean is true exactly
    when the first index of the scene differs from the one before the call,
    so a call that does not move the scene (an out-of-range target among
    them) leaves [changed] false even when it was true before. *)
Theorem shiftScene_overwrites_changed (w : World) (scene : loc) (i : Z) :
  ∃ moved w',
    Stage.shiftScene scene i w = (Ok moved, w') ∧
    changed (this w') = moved ∧
    (moved = false ↔
     array.indexOf (scenes (this w')) scene = array.indexOf (scenes (this w)) scene) ∧
    (¬ (0 ≤ array.indexOf (scenes (this w)) scene + i
          < Z.of_nat (length (scenes (this w))))%Z →
     moved = false ∧ scenes (this w') = scenes (this w)) ∧
    (changed (this w) = true → moved = false → changed (this w') ≠ changed (this w)).
Proof.
  rewrite shiftScene_run. cbv zeta. eexists _, _. split; [reflexivity|].
  simpl. split_and!.
  - done.
  - rewrite negb_false_iff. apply Z.eqb_eq.
  - intros Hout. rewrite swap_out_of_range by done.
    by rewrite Z.eqb_refl.
  - intros -> ->. done.
Qed.

(** ** removeScene *)

(** For a scene the Stage owns and that has a detach hook, [removeScene]
    takes the scene out of the sequence by identity, keeping the order of the
    others, sets [scene.stage] to null, calls the detach hook and marks the
    Stage dirty; the hook is the one event recorded, and when it starts
    [scene.stage] is already null. *)
Theorem removeScene_clears_backref_before_hook (w : World) (scene : loc) :
  scene ∈ scenes (this w) →
  scene_removeFromStage (scene_heap w scene) = true →
  ∃ w' l1 l2,
    Stage.removeScene scene w = (Ok tt, w') ∧
    scenes (this w) = l1 ++ scene :: l2 ∧
    (scene ∉ l1) ∧
    scenes (this w') = l1 ++ l2 ∧
    scene_stage (scene_heap w' scene) = None ∧
    trace w' = trace w ++ [EvSceneRemoveFromStage scene None] ∧
    changed (this w') = true.
Proof.
  intros Hin Hhook.
  destruct (remove_elem _ _ Hin) as (l1 & l2 & Hsplit & Hnin & Hrem).
  unfold Stage.removeScene, mbind, M_bind, get, modify, log. simpl.
  rewrite fn_lookup_insert. simpl. rewrite Hhook. simpl.
  eexists _, l1, l2. split; [reflexivity|]. simpl.
  rewrite fn_lookup_insert. by split_and!.
Qed.

(** ** setSize *)

(** C6: on a Stage that [init] has set up, [setSize] resizes every owned
    scene in stored order, then the composer, then the canvas buffer and the
    GL buffer, and last of all emits the resize notification; nothing else
    happens. *)
Theorem setSize_order (w : World) (r : Resources) (width height : value) :
  resources (this w) = Some r →
  Stage.setSize width height w =
  (Ok tt,
   mkWorld (this w) (records w) (scene_heap w) (next w)
     (trace w ++ map (λ scene, EvSceneSetSize scene width height) (scenes (this w))
              ++ resize_events width height)).
Proof.
  intros Hres. unfold Stage.setSize.
  rewrite (bind_ok _ _ w w w) by done.
  rewrite (bind_ok _ _ _ _ tt (forEach_log _ _ _)).
  unfold Stage.resource, mbind, M_bind, get, log, modify, mret, M_ret. simpl.
  unfold record_event. repeat (simpl; rewrite ?Hres).
  by rewrite <- !app_assoc.
Qed.

(** ** render *)

Lemma blended_app (t1 t2 : list event) :
  blended (t1 ++ t2) = blended t1 ++ blended t2.
Proof.
  induction t1 as [|e t1 IH]; [done|]. destruct e; simpl; by rewrite ?IH.
Qed.

Lemma blended_passes (w : World) (data : value) (l : list loc) :
  blended (flat_map (scene_pass w data) l) = map (λ scene, SceneBuffer scene data) l.
Proof. induction l as [|s l IH]; simpl; by f_equal. Qed.

Lemma render_loop (th : Stage) (rec : loc → gmap string value) (heap : loc → Scene)
    (nx : loc) (r : Resources) (data : value) (l : list loc) (t : list event) :
  resources th = Some r →
  forEach l
    (λ scene, w ← get;
              if Stage.scene_enabled w scene then Stage.renderScene scene data else mret tt)
    (mkWorld th rec heap nx t) =
  (Ok tt,
   mkWorld th rec heap nx
     (t ++ flat_map (scene_pass (mkWorld th rec heap nx t) data)
             (List.filter (Stage.scene_enabled (mkWorld th rec heap nx t)) l))).
Proof.
  intros Hres. revert t. induction l as [|s l IH]; intros t; simpl.
  - by rewrite app_nil_r.
  - unfold mbind at 1, M_bind at 1.
    unfold mbind at 1, M_bind at 1, get at 1.
    unfold Stage.scene_enabled at 1. simpl.
    change (JS.truthy (Stage.prop (scene_properties (heap s)) "enabled"))
      with (Stage.scene_enabled (mkWorld th rec heap nx t) s).
    destruct (Stage.scene_enabled (mkWorld th rec heap nx t) s) eqn:Hen.
    + unfold Stage.renderScene, Stage.resource, mbind, M_bind, get, log, modify,
        mret, M_ret. simpl. rewrite Hres. simpl.
      unfold record_event. simpl.
      fold (@mbind M _ unit unit). rewrite IH.
      unfold Stage.scene_enabled, scene_pass. simpl.
      by rewrite <- !app_assoc.
    + unfold mret at 1, M_ret at 1. rewrite IH. done.
Qed.

(** C7: on a Stage that [init] has set up, [render] clears the composer to
    the background colour with alpha 1, then walks the owned scenes in stored
    order and, for exactly the scenes whose [enabled] property holds, has the
    scene render into a buffer and blends that buffer with the scene's
    property record; a scene whose [enabled] is false records nothing; last
    the composer renders to the screen.  The buffers blended are those of the
    enabled scenes, one each, in order: with a disabled scene followed by an
    enabled one, the one buffer blended is that of the enabled scene.
    ([enabled] is tested for truthiness; for a boolean that is being
    [true].) *)
Theorem render_pipeline (w : World) (r : Resources) (data : value) :
  resources (this w) = Some r →
  let enabled := List.filter (Stage.scene_enabled w) (scenes (this w)) in
  ∃ w',
    Stage.render data w = (Ok tt, w') ∧
    this w' = this w ∧ records w' = records w ∧ scene_heap w' = scene_heap w ∧
    trace w' =
      trace w ++ [EvComposerClear (backgroundColor r) 1]
              ++ flat_map (scene_pass w data) enabled
              ++ [EvComposerRenderToScreen] ∧
    blended (trace w') =
      blended (trace w) ++ map (λ scene, SceneBuffer scene data) enabled ∧
    (∀ scene b,
       Stage.prop (scene_properties (scene_heap w scene)) "enabled" = VBool b →
       (scene ∈ enabled ↔ scene ∈ scenes (this w) ∧ b = true)) ∧
    (∀ a b,
       scenes (this w) = [a; b] →
       Stage.scene_enabled w a = false → Stage.scene_enabled w b = true →
       blended (trace w') = blended (trace w) ++ [SceneBuffer b data]).
Proof.
  intros Hres enabled. destruct w as [th rec heap nx t]. simpl in Hres.
  unfold Stage.render.
  unfold mbind at 1, M_bind at 1, get at 1.
  unfold mbind at 1, M_bind at 1.
  unfold Stage.resource at 1.
  unfold mbind at 1, M_bind at 1, get at 1. cbn [this]. rewrite Hres.
  unfold mret at 1, M_ret at 1.
  unfold mbind at 1, M_bind at 1.
  unfold mbind at 1, M_bind at 1, log at 1, modify at 1, record_event at 1.
  cbn [this trace records scene_heap next scenes].
  rewrite (render_loop th rec heap nx r data _ _ Hres).
  unfold Stage.resource, mbind, M_bind, get, log, modify, mret, M_ret,
    record_event.
  simpl. rewrite Hres. simpl.
  eexists. split; [reflexivity|]. simpl.
  assert (blended
            (((t ++ [EvComposerClear (backgroundColor r) 1]) ++
              flat_map
                (scene_pass (mkWorld th rec heap nx
                               (t ++ [EvComposerClear (backgroundColor r) 1])) data)
                (List.filter
                   (Stage.scene_enabled
                      (mkWorld th rec heap nx
                         (t ++ [EvComposerClear (backgroundColor r) 1])))
                   (scenes th))) ++ [EvComposerRenderToScreen])
          = blended t ++ map (λ scene, SceneBuffer scene data) enabled) as Hblend.
  { rewrite !blended_app, blended_passes. simpl. by rewrite !app_nil_r. }
  split_and!; try done.
  - unfold Stage.scene_enabled, scene_pass. simpl.
    by rewrite <- !app_assoc.
  - intros scene b Hb. subst enabled.
    rewrite list_elem_of_In, List.filter_In, <- list_elem_of_In.
    unfold Stage.scene_enabled. simpl in *. rewrite Hb. simpl. done.
  - intros a b Hscenes Ha Hb. rewrite Hblend. subst enabled.
    simpl in *. rewrite Hscenes. simpl. by rewrite Ha, Hb.
Qed.

(** ** Change tracking *)

Lemma hasChanges_scan_run (l : list loc) (changes : bool) (w : World) :
  Stage.hasChanges_scan l changes w =
  (Ok (changes || existsb (λ scene, scene_changed (scene_heap w scene)) l), w).
Proof.
  revert changes. induction l as [|s l IH]; intros changes; simpl.
  - by rewrite orb_false_r.
  - unfold mbind at 1, M_bind at 1. destruct changes; simpl.
    + by rewrite IH.
    + unfold Stage.Scene_hasChanges, mbind, M_bind, get, mret, M_ret.
      rewrite IH. by destruct (scene_changed (scene_heap w s)).
Qed.

Lemma reset_all_clean (l : list loc) (heap : loc → Scene) (scene : loc) :
  scene_changed (reset_all l heap scene) =
  if decide (scene ∈ l) then false else scene_changed (heap scene).
Proof.
  unfold reset_all. revert heap.
  induction l as [|s l IH]; intros heap; cbn [foldl].
  - case_decide as Hin; [by apply elem_of_nil in Hin|done].
  - rewrite IH. destruct (decide (scene ∈ l)) as [Hin|Hnin].
    + rewrite decide_True; [done|by apply elem_of_cons; right].
    + destruct (decide (s = scene)) as [->|Hne].
      * rewrite fn_lookup_insert. simpl.
        rewrite decide_True; [done|by apply elem_of_cons; left].
      * rewrite fn_lookup_insert_ne by done.
        rewrite decide_False; [done|].
        intros [?|?]%elem_of_cons; congruence.
Qed.

Lemma forEach_resetChanges (l : list loc) (w : World) :
  forEach l Stage.Scene_resetChanges w =
  (Ok tt, mkWorld (this w) (records w) (reset_all l (scene_heap w)) (next w) (trace w)).
Proof.
  revert w. induction l as [|s l IH]; intros w; simpl.
  - by destruct w.
  - unfold mbind at 1, M_bind at 1.
    unfold Stage.Scene_resetChanges at 1, mbind at 1, M_bind at 1, get at 1,
      modify at 1.
    by rewrite IH.
Qed.

(** C4: [hasChanges()] answers true exactly when the Stage's own flag is set
    or some owned scene reports changes, and asking changes nothing;
    [resetChanges()] clears the Stage's flag and resets every owned scene
    (and touches nothing else), so that [hasChanges()] right after it answers
    false, whichever scenes were dirty before. *)
Theorem change_tracking (w : World) :
  (∃ b, Stage.hasChanges w = (Ok b, w) ∧
        (b = true ↔
         changed (this w) = true ∨
         ∃ scene, scene ∈ scenes (this w) ∧ scene_changed (scene_heap w scene) = true)) ∧
  (∃ w', Stage.resetChanges w = (Ok tt, w') ∧
         changed (this w') = false ∧
         scenes (this w') = scenes (this w) ∧
         (∀ scene, scene ∈ scenes (this w) → scene_changed (scene_heap w' scene) = false) ∧
         (∀ scene, scene ∉ scenes (this w) → scene_heap w' scene = scene_heap w scene) ∧
         records w' = records w ∧ trace w' = trace w ∧
         Stage.hasChanges w' = (Ok false, w')).
Proof.
  split.
  - unfold Stage.hasChanges, mbind, M_bind, get. simpl.
    destruct (changed (this w)) eqn:Hc.
    + exists true. split; [done|]. split; auto.
    + rewrite hasChanges_scan_run. simpl. eexists. split; [done|].
      rewrite existsb_exists. split.
      * intros (s & Hin & Hs). right. exists s. by rewrite list_elem_of_In.
      * intros [?|(s & Hin & Hs)]; [done|]. exists s. by rewrite <- list_elem_of_In.
  - unfold Stage.resetChanges, mbind, M_bind, modify, get. simpl.
    rewrite forEach_resetChanges. simpl.
    eexists. split; [reflexivity|]. simpl. split_and!; try done.
    + intros s Hin. rewrite reset_all_clean. by rewrite decide_True.
    + intros s Hnin. revert Hnin. generalize (scene_heap w).
      induction (scenes (this w)) as [|x l IH]; intros heap Hnin; [done|].
      apply not_elem_of_cons in Hnin as [Hne Hnin]. unfold reset_all in *. simpl.
      rewrite IH by done. by rewrite fn_lookup_insert_ne.
    + unfold Stage.hasChanges, mbind, M_bind, get. simpl.
      rewrite hasChanges_scan_run. simpl. f_equal. f_equal.
      apply not_true_is_false. rewrite existsb_exists.
      intros (s & Hin & Hs). rewrite reset_all_clean in Hs.
      rewrite decide_True in Hs; [done|by apply list_elem_of_In].
Qed.

(** ** Zoom *)

Lemma defined_singleton (key : string) (v : value) :
  JS.defined [(key, v)] = {[key := v]}.
Proof. reflexivity. Qed.

Lemma update_zoom (w : World) (z z' : float) :
  zoom_of w = VNum z →
  ∃ b w', Stage.update (VObj [("zoom", VNum z')]) w = (Ok b, w') ∧
          zoom_of w' = VNum (settle z z') ∧
          trace w' = trace w.
Proof.
  intros Hz. unfold zoom_of in *.
  unfold Stage.update, Stage.Display_update.
  unfold mbind at 1, M_bind at 1. unfold mbind at 1, M_bind at 1, get at 1.
  cbn [JS.own_props]. rewrite defined_singleton, map_filter_singleton. cbn [fst snd].
  rewrite Hz. cbn [JS.strict_eq]. unfold settle.
  destruct (PrimFloat.eqb z z') eqn:Heq.
  - rewrite decide_False by done. rewrite map_to_list_empty.
    eexists _, _. split; [reflexivity|]. done.
  - rewrite decide_True by done. rewrite map_to_list_singleton.
    unfold get_field, mbind, M_bind, modify, mret, M_ret. cbn [JS.own_props].
    rewrite defined_singleton, !lookup_singleton_ne by done.
    cbn [default JS.strict_eq negb orb].
    eexists _, _. split; [reflexivity|]. split; [|done].
    unfold Stage.this_properties, Stage.prop, set_this, set_record, set_changed.
    cbn [records properties this]. rewrite fn_lookup_insert.
    by rewrite (lookup_union_Some_l _ _ _ (VNum z')) by apply lookup_singleton_eq.
Qed.

Lemma setZoom_run (w : World) (val z : float) :
  zoom_of w = VNum z →
  ∃ w', Stage.setZoom val w = (Ok tt, w') ∧
        zoom_of w' = VNum (zoom_after (PrimFloat.ltb 0 val) (PrimFloat.ltb val 0) z) ∧
        trace w' = trace w ++ [EvEmit "zoom"].
Proof.
  intros Hz. unfold Stage.setZoom.
  unfold mbind at 1, M_bind at 1, get at 1. cbv zeta.
  fold (zoom_of w). rewrite Hz. unfold zoom_after. cbn [Stage.as_number].
  assert (∀ (m : M unit) w1 z1,
    m w = (Ok tt, w1) → zoom_of w1 = VNum z1 → trace w1 = trace w →
    ∃ w', (m ;; log (EvEmit "zoom")) w = (Ok tt, w') ∧
          zoom_of w' = VNum z1 ∧ trace w' = trace w ++ [EvEmit "zoom"]) as Hlog.
  { intros m w1 z1 Hm Hz1 Ht. rewrite (bind_ok _ _ _ _ _ Hm).
    eexists. split; [reflexivity|]. split; [exact Hz1|].
    unfold record_event. cbn [trace]. by rewrite Ht. }
  assert (∀ z', ∃ w1,
    (Stage.update (VObj [("zoom", VNum z')]) ;; mret tt) w = (Ok tt, w1) ∧
    zoom_of w1 = VNum (settle z z') ∧ trace w1 = trace w) as Hupd.
  { intros z'. destruct (update_zoom w z z' Hz) as (b & w1 & Hrun & Hz1 & Ht).
    exists w1. rewrite (bind_ok _ _ _ _ _ Hrun). by split_and!. }
  destruct (PrimFloat.ltb 0 val); [|destruct (PrimFloat.ltb val 0)].
  - destruct (PrimFloat.ltb z 1) eqn:Hlt.
    + destruct (Hupd (PrimFloat.add z 0.25)) as (w1 & Hrun & Hz1 & Ht).
      apply (Hlog _ w1); [|exact Hz1|exact Ht].
      rewrite (bind_ok _ _ w w z eq_refl), Hlt. exact Hrun.
    + apply (Hlog _ w); [|exact Hz|reflexivity].
      by rewrite (bind_ok _ _ w w z eq_refl), Hlt.
  - destruct (PrimFloat.ltb 0.25 z) eqn:Hlt.
    + destruct (Hupd (PrimFloat.sub z 0.25)) as (w1 & Hrun & Hz1 & Ht).
      apply (Hlog _ w1); [|exact Hz1|exact Ht].
      rewrite (bind_ok _ _ w w z eq_refl), Hlt. exact Hrun.
    + apply (Hlog _ w); [|exact Hz|reflexivity].
      by rewrite (bind_ok _ _ w w z eq_refl), Hlt.
  - destruct (Hupd 1%float) as (w1 & Hrun & Hz1 & Ht).
    apply (Hlog _ w1); [exact Hrun|exact Hz1|exact Ht].
Qed.

Lemma negative_not_positive (val : float) :
  PrimFloat.ltb val 0 = true → PrimFloat.ltb 0 val = false.
Proof.
  rewrite !FloatAxioms.ltb_spec. unfold SFltb. change (Prim2SF 0) with (S754_zero false).
  destruct (Prim2SF val) as [s|s| |s m e]; simpl; try done; by destruct s.
Qed.

Lemma zero_not_signed (val : float) :
  PrimFloat.eqb val 0 = true →
  PrimFloat.ltb 0 val = false ∧ PrimFloat.ltb val 0 = false.
Proof.
  rewrite !FloatAxioms.ltb_spec, FloatAxioms.eqb_spec. unfold SFltb, SFeqb.
  change (Prim2SF 0) with (S754_zero false).
  destruct (Prim2SF val) as [s|s| |s m e]; simpl; try done; by destruct s.
Qed.

Lemma zoom_after_level (up down : bool) (z : float) :
  zoom_level z →
  zoom_level (zoom_after up down z) ∧
  zoom_after true down z = step_up z ∧
  zoom_after false true z = step_down z ∧
  zoom_after false false z = 1%float.
Proof.
  unfold zoom_level.
  intros [H|[H|[H|H]]]; subst z; destruct up, down; vm_compute; auto 10.
Qed.

Lemma repeat_setZoom (val : float) (n : nat) (w : World) (z : float) :
  zoom_of w = VNum z → zoom_level z →
  ∃ w', repeatM n (Stage.setZoom val) w = (Ok tt, w') ∧
        zoom_of w' =
          VNum (iterate n (zoom_after (PrimFloat.ltb 0 val) (PrimFloat.ltb val 0)) z).
Proof.
  revert w z. induction n as [|n IH]; intros w z Hz Hlevel.
  - by exists w.
  - destruct (setZoom_run w val z Hz) as (w1 & Hrun & Hz1 & _).
    destruct (IH w1 _ Hz1) as (w2 & Hrun2 & Hz2).
    { by apply zoom_after_level. }
    exists w2. cbn [repeatM iterate]. by rewrite (bind_ok _ _ _ _ _ Hrun).
Qed.

Lemma climb_from_lowest (n : nat) :
  iterate n step_up 0.25 =
  match n with O => 0.25 | 1 => 0.5 | 2 => 0.75 | _ => 1 end%float.
Proof.
  destruct n as [|[|[|n]]]; try reflexivity.
  change (iterate n step_up 1 = 1%float).
  induction n as [|n IH]; [done|exact IH].
Qed.

Lemma descend_from_highest (n : nat) :
  iterate n step_down 1 =
  match n with O => 1 | 1 => 0.75 | 2 => 0.5 | _ => 0.25 end%float.
Proof.
  destruct n as [|[|[|n]]]; try reflexivity.
  change (iterate n step_down 0.25 = 0.25%float).
  induction n as [|n IH]; [done|exact IH].
Qed.

Lemma iterate_ext (n : nat) (f g : float → float) (z : float) :
  zoom_level z → (∀ x, zoom_level x → f x = g x ∧ zoom_level (f x)) →
  iterate n f z = iterate n g z.
Proof.
  intros Hz Hfg. revert z Hz. induction n as [|n IH]; intros z Hz; [done|].
  simpl. destruct (Hfg z Hz) as [<- Hl]. by apply IH.
Qed.

(** C3: on a Stage whose zoom is one of 0.25, 0.5, 0.75 and 1.0, [setZoom]
    leaves a zoom of that set: a positive argument adds 0.25 only when the
    zoom is below 1.0, a negative one subtracts 0.25 only when the zoom is
    above 0.25, zero sets 1.0; every call emits the zoom notification (and
    nothing else), the value changed or not.  From 0.25, calls with a
    positive argument give 0.5, 0.75, then 1.0 at the third call and at every
    later one; from 1.0, calls with a negative argument give 0.75, 0.5, then
    0.25 at the third call and at every later one. *)
Theorem setZoom_keeps_zoom_levels (w : World) (z : float) :
  zoom_of w = VNum z → zoom_level z →
  (∀ val, ∃ w' z',
     Stage.setZoom val w = (Ok tt, w') ∧
     zoom_of w' = VNum z' ∧ zoom_level z' ∧
     trace w' = trace w ++ [EvEmit "zoom"] ∧
     (PrimFloat.ltb 0 val = true →
      z' = if PrimFloat.ltb z 1 then PrimFloat.add z 0.25 else z) ∧
     (PrimFloat.ltb val 0 = true →
      z' = if PrimFloat.ltb 0.25 z then PrimFloat.sub z 0.25 else z) ∧
     (PrimFloat.eqb val 0 = true → z' = 1%float)) ∧
  (z = 0.25%float → ∀ val n, PrimFloat.ltb 0 val = true →
     ∃ w', repeatM n (Stage.setZoom val) w = (Ok tt, w') ∧
           zoom_of w' = VNum match n with O => 0.25 | 1 => 0.5 | 2 => 0.75 | _ => 1 end) ∧
  (z = 1%float → ∀ val n, PrimFloat.ltb val 0 = true →
     ∃ w', repeatM n (Stage.setZoom val) w = (Ok tt, w') ∧
           zoom_of w' = VNum match n with O => 1 | 1 => 0.75 | 2 => 0.5 | _ => 0.25 end).
Proof.
  intros Hz Hlevel. split_and!.
  - intros val. destruct (setZoom_run w val z Hz) as (w' & Hrun & Hz' & Ht).
    exists w', (zoom_after (PrimFloat.ltb 0 val) (PrimFloat.ltb val 0) z).
    destruct (zoom_after_level (PrimFloat.ltb 0 val) (PrimFloat.ltb val 0) z Hlevel)
      as (Hl & Hup & Hdown & Hzero).
    split_and!; try done.
    + intros ->. exact Hup.
    + intros Hneg. rewrite (negative_not_positive _ Hneg), Hneg. exact Hdown.
    + intros [-> ->]%zero_not_signed. exact Hzero.
  - intros -> val n Hpos.
    destruct (repeat_setZoom val n w _ Hz Hlevel) as (w' & Hrun & Hz').
    exists w'. split; [done|]. rewrite Hz', Hpos, <- climb_from_lowest.
    f_equal. apply iterate_ext; [done|].
    intros x Hx. destruct (zoom_after_level true (PrimFloat.ltb val 0) x Hx)
      as (? & ? & _). done.
  - intros -> val n Hneg.
    destruct (repeat_setZoom val n w _ Hz Hlevel) as (w' & Hrun & Hz').
    exists w'. split; [done|].
    rewrite Hz', (negative_not_positive _ Hneg), Hneg, <- descend_from_highest.
    f_equal. apply iterate_ext; [done|].
    intros x Hx. destruct (zoom_after_level false true x Hx) as (? & _ & ? & _).
    done.
Qed.

(** ** Before [init] *)

(** [init] on a Stage not yet initialised acquires the resources; a second
    call does nothing. *)
Lemma init_acquires (w : World) (c : value) :
  initialized (this w) = false →
  ∃ w' r, Stage.init c w = (Ok tt, w') ∧
          resources (this w') = Some r ∧ initialized (this w') = true ∧
          Stage.init c w' = (Ok tt, w').
Proof.
  intros Hinit. unfold Stage.init, mbind, M_bind, get, log, modify. simpl.
  rewrite Hinit. simpl. eexists _, _. split; [reflexivity|]. by split_and!.
Qed.

Lemma setSize_with_resources (w : World) (r : Resources) (width height : value) :
  resources (this w) = Some r →
  Stage.setSize width height w =
  (Ok tt,
   mkWorld (this w) (records w) (scene_heap w) (next w)
     (trace w ++ map (λ scene, EvSceneSetSize scene width height) (scenes (this w))
              ++ resize_events width height)).
Proof.
  intros Hres. unfold Stage.setSize.
  rewrite (bind_ok _ _ w w w) by done.
  rewrite (bind_ok _ _ _ _ tt (forEach_log _ _ _)).
  unfold Stage.resource, mbind, M_bind, get, log, modify, mret, M_ret. simpl.
  unfold record_event. repeat (simpl; rewrite ?Hres).
  by rewrite <- !app_assoc.
Qed.

Lemma setSize_without_resources (w : World) (width height : value) :
  resources (this w) = None →
  Stage.setSize width height w =
  (Throw (TypeError "Cannot read properties of undefined (reading 'setSize')"),
   mkWorld (this w) (records w) (scene_heap w) (next w)
     (trace w ++ map (λ scene, EvSceneSetSize scene width height) (scenes (this w)))).
Proof.
  intros Hres. unfold Stage.setSize.
  unfold mbind at 1, M_bind at 1, get at 1.
  rewrite (bind_ok _ _ _ _ tt (forEach_log _ _ _)).
  apply bind_throw.
  unfold Stage.resource, mbind, M_bind, get. cbn [this]. by rewrite Hres.
Qed.

(** A provided key whose value differs from the current one makes
    [Display.update] write and answer true. *)
Lemma Display_update_differs (w : World) (p : value) (key : string) (v : value) :
  JS.own_props p !! key = Some v →
  JS.strict_eq (Stage.prop (Stage.this_properties w) key) v = false →
  ∃ w', Stage.Display_update p w = (Ok true, w') ∧
        resources (this w') = resources (this w) ∧
        scenes (this w') = scenes (this w) ∧ trace w' = trace w.
Proof.
  intros Hp Hdiff. unfold Stage.Display_update.
  unfold mbind at 1, M_bind at 1, get at 1. cbv zeta.
  set (delta := filter _ (JS.own_props p)).
  assert (delta !! key = Some v) as Hdelta.
  { subst delta. by apply map_lookup_filter_Some. }
  destruct (map_to_list delta) as [|kv kvs] eqn:Hlist.
  { apply map_to_list_empty_iff in Hlist. rewrite Hlist in Hdelta.
    by rewrite lookup_empty in Hdelta. }
  eexists. split; [reflexivity|]. done.
Qed.

(** C10: on a Stage whose resources [init] has not acquired, [setSize] fails
    with a [TypeError] (the read of [setSize] on the undefined composer), and
    so does [update] whenever the record it is given provides a width or a
    height that is not [undefined] and differs from the current value. *)
Theorem setSize_requires_init (w : World) :
  resources (this w) = None →
  (∀ width height, ∃ msg w',
     Stage.setSize width height w = (Throw (TypeError msg), w')) ∧
  (∀ p key v,
     key = "width" ∨ key = "height" →
     JS.own_props p !! key = Some v →
     JS.strict_eq v VUndef = false →
     JS.strict_eq (Stage.prop (Stage.this_properties w) key) v = false →
     ∃ msg w', Stage.update p w = (Throw (TypeError msg), w')).
Proof.
  intros Hres. split.
  - intros width height. eexists _, _. by apply setSize_without_resources.
  - intros p key v Hkey Hp Hdef Hdiff.
    destruct (Display_update_differs w p key v Hp Hdiff) as (w1 & Hrun & Hres1 & _).
    rewrite Hres in Hres1.
    unfold Stage.update. rewrite (bind_ok _ _ _ _ _ Hrun).
    eexists _, _. apply bind_throw.
    assert (∀ k, get_field p k = mret (default VUndef (JS.own_props p !! k))) as Hget.
    { intros k. destruct p; try done; simpl in Hp; by rewrite lookup_empty in Hp. }
    rewrite !Hget.
    rewrite !mret_bind.
    assert (negb (JS.strict_eq (default VUndef (JS.own_props p !! "width")) VUndef)
            || negb (JS.strict_eq (default VUndef (JS.own_props p !! "height")) VUndef)
            = true) as ->.
    { destruct Hkey as [-> | ->]; rewrite Hp;
        change (default VUndef (Some v)) with v; rewrite Hdef;
        [done|apply orb_true_r]. }
    apply bind_throw. rewrite get_bind.
    by apply setSize_without_resources.
Qed.

(** ** Serialisation *)

Section Serialisation.

Variables CANVAS_WIDTH CANVAS_HEIGHT : float.
Variable DISPLAY_TYPE_STAGE : string.
Variables Display_id Display_name : loc → value.

Abbreviation defaults := (Stage.defaultProperties CANVAS_WIDTH CANVAS_HEIGHT).
Abbreviation new_Stage :=
  (Stage.constructor CANVAS_WIDTH CANVAS_HEIGHT DISPLAY_TYPE_STAGE Display_id Display_name).
Abbreviation built := (constructed CANVAS_WIDTH CANVAS_HEIGHT DISPLAY_TYPE_STAGE).


(** The object the class declares holds the default properties. *)
Lemma defaultProperties_object_props :
  JS.own_props (Stage.defaultProperties_object CANVAS_WIDTH CANVAS_HEIGHT) = defaults.
Proof.
  apply map_eq. intros key.
  unfold Stage.defaultProperties_object, Stage.defaultProperties, JS.own_props, JS.defined.
  cbn [foldl fst snd]. rewrite !lookup_insert.
  repeat case_decide; congruence.
Qed.

Lemma constructor_run (w : World) (p : value) :
  new_Stage p w =
  (Ok tt,
   mkWorld (mkStage (S (next w)) (Display_id (S (next w))) (Display_name (S (next w)))
              DISPLAY_TYPE_STAGE (next w) [] false false None)
           (<[next w := JS.own_props p ∪ defaults]> (records w))
           (scene_heap w) (S (S (next w))) (trace w)).
Proof. reflexivity. Qed.

Lemma constructor_constructed (w : World) (p : value) :
  built (new_Stage p w).2.
Proof.
  rewrite constructor_run. unfold constructed, Stage.this_properties.
  cbn [snd this type properties records next]. split_and!; [done| |lia].
  intros key [x Hx]. rewrite fn_lookup_insert.
  destruct (JS.own_props p !! key) as [y|] eqn:Hp.
  - exists y. by apply lookup_union_Some_l.
  - exists x. by rewrite lookup_union_r.
Qed.

(** Writing properties keeps a Stage constructed: keys are added or
    overwritten, never taken away. *)
Lemma Display_update_constructed (w : World) (p : value) :
  built w → built (Stage.Display_update p w).2.
Proof.
  intros (Htype & Hkeys & Halloc). unfold Stage.Display_update.
  rewrite get_bind. cbv zeta.
  destruct (map_to_list _) as [|kv kvs]; [done|].
  unfold constructed, Stage.this_properties, mbind, M_bind, modify, mret, M_ret,
    set_this, set_record, set_changed.
  cbn [snd this type properties records next]. split_and!; [done| |done].
  intros key Hkey. rewrite fn_lookup_insert.
  apply lookup_union_is_Some. right. by apply Hkeys.
Qed.

Lemma toJSON_run (w : World) :
  Stage.toJSON w =
  (Ok (Stage.mkStageJSON (id (this w)) (name (this w)) (type (this w)) (next w)),
   mkWorld (this w) (<[next w := Stage.this_properties w]> (records w))
           (scene_heap w) (S (next w)) (trace w)).
Proof. reflexivity. Qed.


End Serialisation.

(** ** Loading a configuration *)

Section LoadConfig.

Variables CANVAS_WIDTH CANVAS_HEIGHT : float.
Variables displayLibrary effectsLibrary : string → bool.
Variable Scene_defaultProperties : gmap string value.

Abbreviation load :=
  (Stage.loadConfig CANVAS_WIDTH CANVAS_HEIGHT displayLibrary effectsLibrary
     Scene_defaultProperties).

(** C1 (amended): for every input whose [typeof] is not ['object'] (the
    number 42, a string, a boolean, [undefined]), [loadConfig] reports the
    error 'Invalid project data.' and does nothing else: the Stage, with its
    scene list and its changed flag, the property records and the scenes are
    as before the call, and no scene was detached. *)
Theorem loadConfig_rejects_non_objects (config : value) (w : World) :
  JS.typeof config ≠ "object" →
  ∃ w', load config w = (Ok tt, w') ∧
        this w' = this w ∧ records w' = records w ∧
        scene_heap w' = scene_heap w ∧ next w' = next w ∧
        trace w' = trace w ++ [EvRaiseError "Invalid project data."].
Proof.
  intros Htype. unfold Stage.loadConfig.
  destruct (String.eqb_spec (JS.typeof config) "object") as [Heq|_]; [done|].
  eexists. split; [reflexivity|]. done.
Qed.

End LoadConfig.

(** ** The theorems at concrete stages *)

(** The number 42 is rejected, and [demo_stage] is left as it was. *)
Lemma loadConfig_rejects_number :
  ∃ w', sample_load (VNum 42) demo_stage = (Ok tt, w') ∧
        this w' = this demo_stage ∧ records w' = records demo_stage ∧
        scene_heap w' = scene_heap demo_stage ∧ next w' = next demo_stage ∧
        trace w' = [EvRaiseError "Invalid project data."].
Proof.
  apply (loadConfig_rejects_non_objects sample_width sample_height no_library
           no_library ∅ (VNum 42) demo_stage).
  simpl. discriminate.
Defined.

(** C1 (as stated, refuted): an array is of type ['object'].  Loading the
    empty array reports no error and is not without effect: both scenes are
    detached, the scene list ends empty and the Stage is marked dirty. *)
Lemma loadConfig_accepts_array :
  JS.typeof (VArr []) = "object" ∧
  (sample_load (VArr []) demo_stage).1 = Ok tt ∧
  scenes (this demo_stage) = [2; 3] ∧
  scenes (this (sample_load (VArr []) demo_stage).2) = [] ∧
  changed (this demo_stage) = false ∧
  changed (this (sample_load (VArr []) demo_stage).2) = true ∧
  trace (sample_load (VArr []) demo_stage).2 =
    [EvSceneRemoveFromStage 2 None; EvSceneRemoveFromStage 3 None; EvResetDisplayCount].
Proof. by vm_compute. Qed.

(** [null] is of type ['object'] too: the scenes are cleared, then the read
    of [config.scenes] throws. *)
Lemma loadConfig_null_clears_then_throws :
  (sample_load VNull demo_stage).1 =
    Throw (TypeError "Cannot read properties of null (reading 'scenes')") ∧
  scenes (this (sample_load VNull demo_stage).2) = [] ∧
  trace (sample_load VNull demo_stage).2 =
    [EvSceneRemoveFromStage 2 None; EvSceneRemoveFromStage 3 None; EvResetDisplayCount].
Proof. by vm_compute. Qed.

(** From 0.25, three calls of [setZoom(1)] reach 1.0. *)
Lemma setZoom_three_calls :
  zoom_of quarter_stage = VNum 0.25 ∧
  ∃ w', repeatM 3 (Stage.setZoom 1) quarter_stage = (Ok tt, w') ∧
        zoom_of w' = VNum 1.
Proof.
  split; [reflexivity|].
  destruct (setZoom_keeps_zoom_levels quarter_stage 0.25 eq_refl (or_introl eq_refl))
    as (_ & Hup & _).
  exact (Hup eq_refl 1%float 3 eq_refl).
Defined.

(** Removing the first scene of [demo_stage]. *)
Lemma removeScene_hidden_scene :
  ∃ w', Stage.removeScene 2 demo_stage = (Ok tt, w') ∧
        scenes (this w') = [3] ∧
        scene_stage (scene_heap w' 2) = None ∧
        trace w' = [EvSceneRemoveFromStage 2 None] ∧
        changed (this w') = true.
Proof.
  destruct (removeScene_clears_backref_before_hook demo_stage 2)
    as (w' & l1 & l2 & Hrun & Hsplit & Hnin & Hscenes & Hstage & Htrace & Hchanged).
  - apply elem_of_cons. by left.
  - reflexivity.
  - exists w'. split_and!; try done.
    rewrite Hscenes. destruct l1 as [|x l1].
    + by injection Hsplit as <-.
    + injection Hsplit as <- Hrest. exfalso. apply Hnin, elem_of_cons. by left.
Defined.

(** C5 (the code falls short of the claim): [bare_stage] owns scene 2, which
    has neither hook.  [removeScene] calls the detach hook without testing for
    it: the call throws once the scene has left the list and lost its
    back-reference, and the Stage is not marked dirty.  [addScene], its
    sibling, tests for the attach hook and accepts the same scene. *)
Theorem removeScene_hook_not_tested :
  scenes (this bare_stage) = [2; 3] ∧
  scene_removeFromStage (scene_heap bare_stage 2) = false ∧
  (Stage.removeScene 2 bare_stage).1
    = Throw (TypeError "scene.removeFromStage is not a function") ∧
  scenes (this (Stage.removeScene 2 bare_stage).2) = [3] ∧
  scene_stage (scene_heap (Stage.removeScene 2 bare_stage).2 2) = None ∧
  changed (this bare_stage) = false ∧
  changed (this (Stage.removeScene 2 bare_stage).2) = false ∧
  trace (Stage.removeScene 2 bare_stage).2 = [] ∧
  scene_addToStage (scene_heap bare_stage 2) = false ∧
  (Stage.addScene ∅ (Some 2) None bare_stage).1 = Ok 2 ∧
  changed (this (Stage.addScene ∅ (Some 2) None bare_stage).2) = true.
Proof. by vm_compute. Qed.

(** Resizing [demo_stage] to 1280 x 720. *)
Lemma setSize_demo :
  (Stage.setSize (VNum 1280) (VNum 720) demo_stage).1 = Ok tt ∧
  trace (Stage.setSize (VNum 1280) (VNum 720) demo_stage).2 =
    [EvSceneSetSize 2 (VNum 1280) (VNum 720); EvSceneSetSize 3 (VNum 1280) (VNum 720);
     EvComposerSetSize (VNum 1280) (VNum 720); EvCanvasBufferSetSize (VNum 1280) (VNum 720);
     EvGLBufferSetSize (VNum 1280) (VNum 720); EvEmit "stage-resize"].
Proof.
  rewrite (setSize_order demo_stage (mkResources (VStr "canvas") (VStr "#000000"))
             (VNum 1280) (VNum 720) eq_refl).
  by split.
Defined.

(** [demo_stage] owns a disabled scene and an enabled one: one buffer is
    blended, the enabled scene's. *)
Lemma render_one_disabled_one_enabled :
  ∃ w', Stage.render VNull demo_stage = (Ok tt, w') ∧
        blended (trace w') = [SceneBuffer 3 VNull].
Proof.
  destruct (render_pipeline demo_stage (mkResources (VStr "canvas") (VStr "#000000"))
              VNull eq_refl)
    as (w' & Hrun & _ & _ & _ & _ & _ & _ & Htwo).
  exists w'. split; [exact Hrun|].
  exact (Htwo 2 3 eq_refl eq_refl eq_refl).
Defined.





(** [update({ width: 100 })] before [init]. *)
Lemma update_width_before_init :
  resources (this dirty_stage) = None ∧
  ∃ msg w', Stage.update (VObj [("width", VNum 100)]) dirty_stage
            = (Throw (TypeError msg), w').
Proof.
  split; [reflexivity|].
  destruct (setSize_requires_init dirty_stage eq_refl) as [_ Hupdate].
  apply (Hupdate (VObj [("width", VNum 100)]) "width" (VNum 100));
    [by left|reflexivity|reflexivity|reflexivity].
Defined.

(** * Further properties of the Stage *)

(** ** Acquiring the resources *)

(** [init] acquires the resources once: on a Stage that is initialised it
    does nothing, whatever canvas it is given; on one that is not, it builds
    the renderer on the canvas at the current width and height, then the
    composer, then the two buffers at the same size, keeps the background
    colour of the properties, and leaves the scenes, the dirty flag and the
    stores as they were; every later call does nothing. *)
Theorem init_once (w : World) (c : value) :
  (initialized (this w) = true → Stage.init c w = (Ok tt, w)) ∧
  (initialized (this w) = false →
   ∃ w', Stage.init c w = (Ok tt, w') ∧
     trace w' = trace w ++
       [EvNewRenderer c (Stage.prop (Stage.this_properties w) "width")
                        (Stage.prop (Stage.this_properties w) "height");
        EvNewComposer;
        EvNewCanvasBuffer (Stage.prop (Stage.this_properties w) "width")
                          (Stage.prop (Stage.this_properties w) "height");
        EvNewGLBuffer (Stage.prop (Stage.this_properties w) "width")
                      (Stage.prop (Stage.this_properties w) "height")] ∧
     resources (this w') =
       Some (mkResources c (Stage.prop (Stage.this_properties w) "backgroundColor")) ∧
     initialized (this w') = true ∧
     scenes (this w') = scenes (this w) ∧ changed (this w') = changed (this w) ∧
     properties (this w') = properties (this w) ∧
     records w' = records w ∧ scene_heap w' = scene_heap w ∧
     ∀ c', Stage.init c' w' = (Ok tt, w')).
Proof.
  split; intros Hinit; unfold Stage.init; rewrite get_bind, Hinit; [done|].
  unfold mbind, M_bind, log, modify, record_event.
  cbn [this trace records scene_heap next].
  eexists. split; [reflexivity|].
  cbn [this trace records scene_heap next set_this set_resources resources
       initialized scenes changed properties].
  rewrite <- !app_assoc. by split_and!.
Qed.

(** ** Before [init] *)

(** Before [init], [render] fails on the undefined composer before anything
    is drawn: no scene is rendered and the Stage is left as it was.
    [renderScene], called on its own, has the scene render first and fails
    only then, at the blend step. *)
Theorem render_before_init (w : World) (data : value) :
  resources (this w) = None →
  (∃ msg, Stage.render data w = (Throw (TypeError msg), w)) ∧
  (∀ scene, ∃ msg,
     Stage.renderScene scene data w =
     (Throw (TypeError msg), record_event (EvSceneRender scene data) w)).
Proof.
  intros Hres. split.
  - unfold Stage.render. rewrite get_bind. eexists. apply bind_throw.
    unfold Stage.resource. rewrite get_bind, Hres. reflexivity.
  - intros scene. unfold Stage.renderScene. eexists.
    rewrite (bind_ok _ _ w (record_event (EvSceneRender scene data) w) tt eq_refl).
    apply bind_throw. unfold Stage.resource. rewrite get_bind.
    unfold record_event. cbn [this]. rewrite Hres. reflexivity.
Qed.

(** Before [init], [setSize] has already resized every owned scene, in
    stored order, when it fails: the scenes hold the new size, the composer
    and the buffers do not exist, and no resize notification is emitted. *)
Theorem setSize_before_init_resizes_scenes (w : World) (width height : value) :
  resources (this w) = None →
  ∃ msg w',
    Stage.setSize width height w = (Throw (TypeError msg), w') ∧
    this w' = this w ∧ records w' = records w ∧ scene_heap w' = scene_heap w ∧
    trace w' =
      trace w ++ map (λ scene, EvSceneSetSize scene width height) (scenes (this w)).
Proof.
  intros Hres. rewrite (setSize_without_resources w width height Hres).
  eexists _, _. split; [reflexivity|]. done.
Qed.

(** ** The scene list *)

(** The world [removeScene] leaves before the detach hook is called. *)
Lemma removeScene_run (w : World) (scene : loc) :
  Stage.removeScene scene w =
  let w1 :=
    mkWorld (set_scenes (array.remove (scenes (this w)) scene) (this w)) (records w)
            (<[scene := Stage.set_scene_stage None (scene_heap w scene)]> (scene_heap w))
            (next w) (trace w) in
  if scene_removeFromStage (scene_heap w scene)
  then (Ok tt, set_this (set_changed true)
                 (record_event (EvSceneRemoveFromStage scene None) w1))
  else (Throw (TypeError "scene.removeFromStage is not a function"), w1).
Proof.
  unfold Stage.removeScene, mbind, M_bind, get, modify, log.
  cbn [set_this set_scene this records scene_heap next trace]. cbv zeta.
  rewrite fn_lookup_insert. cbn [scene_removeFromStage scene_stage Stage.set_scene_stage].
  by destruct (scene_removeFromStage (scene_heap w scene)).
Qed.

(** A scene without a detach hook: [removeScene] throws, and the scene has
    by then left the list and lost its back-reference, while the Stage is not
    marked dirty and no hook has run. *)
Theorem removeScene_without_hook (w : World) (scene : loc) :
  scene_removeFromStage (scene_heap w scene) = false →
  ∃ msg w',
    Stage.removeScene scene w = (Throw (TypeError msg), w') ∧
    scenes (this w') = array.remove (scenes (this w)) scene ∧
    (scene ∈ scenes (this w) →
     length (scenes (this w')) < length (scenes (this w))) ∧
    scene_stage (scene_heap w' scene) = None ∧
    changed (this w') = changed (this w) ∧
    trace w' = trace w.
Proof.
  intros Hhook. rewrite removeScene_run. cbv zeta. rewrite Hhook.
  eexists _, _. split; [reflexivity|].
  cbn [this scenes set_scenes changed scene_heap trace].
  rewrite fn_lookup_insert. split_and!; try done.
  intros Hin. destruct (remove_elem _ _ Hin) as (l1 & l2 & -> & _ & ->).
  rewrite !length_app. simpl. lia.
Qed.

Lemma remove_appended (l : list loc) (x : loc) :
  x ∉ l → array.remove (l ++ [x]) x = l.
Proof.
  induction l as [|y l IH]; intros Hnin; simpl.
  - by rewrite decide_True.
  - apply not_elem_of_cons in Hnin as [Hne Hnin].
    rewrite decide_False by done. by rewrite IH.
Qed.

Lemma addScene_run (sd : gmap string value) (w : World) (scene : loc)
    (index : option Z) :
  Stage.addScene sd (Some scene) index w =
  let l := match index with
           | Some i => array.insert (scenes (this w)) i scene
           | None => scenes (this w) ++ [scene]
           end in
  (Ok scene,
   mkWorld (set_changed true (set_scenes l (this w))) (records w)
     (<[scene := Stage.set_scene_stage (Some (self (this w))) (scene_heap w scene)]>
        (scene_heap w))
     (next w)
     (trace w ++ if scene_addToStage (scene_heap w scene)
                 then [EvSceneAddToStage scene (Some (self (this w)))] else [])).
Proof.
  unfold Stage.addScene. rewrite mret_bind, get_bind.
  destruct index as [i|];
    unfold mbind, M_bind, get, modify, log;
    cbn [set_this set_scene this records scene_heap next trace self set_scenes];
    rewrite fn_lookup_insert;
    cbn [scene_addToStage scene_stage Stage.set_scene_stage];
    destruct (scene_addToStage (scene_heap w scene));
    unfold mret, M_ret, record_event, set_this;
    cbn [this records scene_heap next trace]; by rewrite ?app_nil_r.
Qed.

(** [addScene(scene)] without an index appends the scene, whether or not the
    Stage already owns it (an owned scene is then stored twice), points the
    scene's back-reference at this Stage, calls the attach hook if the scene
    has one (the back-reference is set by then), marks the Stage dirty and
    answers the scene; no other scene is touched.  Afterwards [hasScenes()]
    and [hasChanges()] answer true. *)
Theorem addScene_appends (sd : gmap string value) (w : World) (scene : loc) :
  ∃ w',
    Stage.addScene sd (Some scene) None w = (Ok scene, w') ∧
    scenes (this w') = scenes (this w) ++ [scene] ∧
    scene_stage (scene_heap w' scene) = Some (self (this w)) ∧
    (∀ other, other ≠ scene → scene_heap w' other = scene_heap w other) ∧
    trace w' =
      trace w ++ (if scene_addToStage (scene_heap w scene)
                  then [EvSceneAddToStage scene (Some (self (this w)))] else []) ∧
    changed (this w') = true ∧
    Stage.hasScenes w' = (Ok true, w') ∧
    Stage.hasChanges w' = (Ok true, w').
Proof.
  rewrite addScene_run. cbv zeta. eexists. split; [reflexivity|].
  cbn [this scenes set_scenes set_changed changed scene_heap trace].
  rewrite fn_lookup_insert. split_and!; try done.
  - intros other Hne. by rewrite fn_lookup_insert_ne.
  - unfold Stage.hasScenes. rewrite get_bind.
    cbn [this scenes set_scenes set_changed]. rewrite length_app. simpl.
    by rewrite Nat.add_1_r.
Qed.

(** [addScene(scene, index)] with an index inside the list (0 and the length
    included) puts the scene at that index: the scenes before it keep their
    place and those at or after it move one place later.  Index 0 is an index
    like any other: the scene goes to the front. *)
Theorem addScene_at_index (sd : gmap string value) (w : World) (scene : loc) (i : nat) :
  i ≤ length (scenes (this w)) →
  ∃ w',
    Stage.addScene sd (Some scene) (Some (Z.of_nat i)) w = (Ok scene, w') ∧
    scenes (this w') = take i (scenes (this w)) ++ scene :: drop i (scenes (this w)) ∧
    scenes (this w') !! i = Some scene ∧
    (∀ k, k < i → scenes (this w') !! k = scenes (this w) !! k) ∧
    (∀ k, i ≤ k → scenes (this w') !! S k = scenes (this w) !! k) ∧
    length (scenes (this w')) = S (length (scenes (this w))) ∧
    changed (this w') = true.
Proof.
  intros Hi. rewrite addScene_run. cbv zeta. eexists. split; [reflexivity|].
  cbn [this scenes set_scenes set_changed changed].
  unfold array.insert, array.splice_in.
  destruct (Z.ltb_spec (Z.of_nat i) 0); [lia|].
  rewrite Z.min_l by lia. rewrite Nat2Z.id.
  assert (length (take i (scenes (this w))) = i) as Htake
    by (rewrite length_take; lia).
  split_and!; try done.
  - rewrite lookup_app_r by lia. by rewrite Htake, Nat.sub_diag.
  - intros k Hk. rewrite lookup_app_l by lia. by apply lookup_take_lt.
  - intros k Hk. rewrite lookup_app_r by lia. rewrite Htake.
    replace (S k - i) with (S (k - i)) by lia. simpl.
    rewrite lookup_drop. f_equal. lia.
  - rewrite length_app. simpl. rewrite length_drop, Htake. lia.
Qed.

(** Adding a scene the Stage does not own and removing it again gives back
    the scene list as it was, whether or not the scene has a detach hook:
    with the hook the removal succeeds, without it the removal throws, once
    the scene has left the list.  Either way the scene is left without a
    back-reference, no other scene is touched and the Stage is dirty. *)
Theorem addScene_removeScene_roundtrip (sd : gmap string value) (w : World)
    (scene : loc) :
  scene ∉ scenes (this w) →
  ∃ r w',
    (Stage.addScene sd (Some scene) None ;; Stage.removeScene scene) w = (r, w') ∧
    (scene_removeFromStage (scene_heap w scene) = true → r = Ok tt) ∧
    (scene_removeFromStage (scene_heap w scene) = false → ∃ msg, r = Throw (TypeError msg)) ∧
    scenes (this w') = scenes (this w) ∧
    scene_stage (scene_heap w' scene) = None ∧
    (∀ other, other ≠ scene → scene_heap w' other = scene_heap w other) ∧
    changed (this w') = true.
Proof.
  intros Hnin.
  rewrite (bind_ok _ _ _ _ _ (addScene_run sd w scene None)).
  rewrite removeScene_run. cbv zeta.
  cbn [this scenes set_scenes set_changed scene_heap].
  rewrite fn_lookup_insert.
  cbn [scene_removeFromStage Stage.set_scene_stage].
  destruct (scene_removeFromStage (scene_heap w scene)).
  - eexists _, _. split; [reflexivity|].
    cbn [set_this record_event this scenes set_scenes set_changed changed scene_heap].
    rewrite fn_lookup_insert. split_and!; try done.
    + by apply remove_appended.
    + intros other Hne. by rewrite !fn_lookup_insert_ne.
  - eexists _, _. split; [reflexivity|].
    cbn [this scenes set_scenes set_changed changed scene_heap].
    rewrite fn_lookup_insert. split_and!; try done.
    + intros _. by eexists.
    + by apply remove_appended.
    + intros other Hne. by rewrite !fn_lookup_insert_ne.
Qed.

(** ** Clearing the scenes *)

Lemma detach_all_hook (l : list loc) (heap : loc → Scene) (scene : loc) :
  scene_removeFromStage (detach_all l heap scene)
  = scene_removeFromStage (heap scene).
Proof.
  unfold detach_all. revert heap.
  induction l as [|x l IH]; intros heap; cbn [foldl]; [done|].
  rewrite IH. destruct (decide (x = scene)) as [->|Hne].
  - by rewrite fn_lookup_insert.
  - by rewrite fn_lookup_insert_ne.
Qed.

Lemma detach_all_lookup (l : list loc) (heap : loc → Scene) (scene : loc) :
  (scene ∈ l → scene_stage (detach_all l heap scene) = None) ∧
  (scene ∉ l → detach_all l heap scene = heap scene).
Proof.
  unfold detach_all. revert heap.
  induction l as [|x l IH]; intros heap; cbn [foldl].
  - split; [by intros ?%elem_of_nil|done].
  - destruct (IH (<[x := Stage.set_scene_stage None (heap x)]> heap)) as [IHin IHnin].
    split.
    + intros Hin. destruct (decide (scene ∈ l)) as [Hl|Hl]; [by apply IHin|].
      rewrite IHnin by done.
      apply elem_of_cons in Hin as [->|?]; [|done].
      by rewrite fn_lookup_insert.
    + intros [Hne Hnin]%not_elem_of_cons.
      rewrite IHnin by done. by rewrite fn_lookup_insert_ne.
Qed.

Lemma remove_first (l : list loc) (x : loc) :
  x ∈ l → x :: array.remove l x ≡ₚ l.
Proof.
  intros Hin. destruct (remove_elem l x Hin) as (l1 & l2 & -> & _ & ->).
  by rewrite Permutation_middle.
Qed.

(** Removing, one by one, the elements of a list from one of its
    rearrangements leaves nothing. *)
Lemma remove_each (l c : list loc) :
  c ≡ₚ l → foldl array.remove c l = [].
Proof.
  revert c. induction l as [|x l IH]; intros c Hperm; cbn [foldl].
  - by apply Permutation_nil_r.
  - apply IH. apply (Permutation_cons_inv (a := x)).
    rewrite remove_first; [done|]. rewrite Hperm. by left.
Qed.

Lemma forEach_removeScene (l : list loc) (w : World) :
  (∀ scene, scene ∈ l → scene_removeFromStage (scene_heap w scene) = true) →
  forEach l Stage.removeScene w =
  (Ok tt,
   mkWorld (set_changed (match l with [] => changed (this w) | _ => true end)
              (set_scenes (foldl array.remove (scenes (this w)) l) (this w)))
           (records w) (detach_all l (scene_heap w)) (next w)
           (trace w ++ map (λ scene, EvSceneRemoveFromStage scene None) l)).
Proof.
  revert w. induction l as [|x l IH]; intros w Hhooks.
  - cbn [forEach foldl map]. rewrite app_nil_r. by destruct w as [[] ? ? ? ?].
  - cbn [forEach]. unfold mbind at 1, M_bind at 1.
    rewrite removeScene_run. cbv zeta.
    rewrite (Hhooks x) by (by left). rewrite IH.
    + unfold detach_all. cbn [foldl map set_this record_event this scenes
        set_scenes set_changed changed records scene_heap next trace self id
        name type properties initialized resources].
      rewrite <- app_assoc. by destruct l.
    + intros scene Hin.
      cbn [set_this record_event this scene_heap].
      destruct (decide (x = scene)) as [->|Hne].
      * rewrite fn_lookup_insert. cbn [scene_removeFromStage Stage.set_scene_stage].
        apply Hhooks. by left.
      * rewrite fn_lookup_insert_ne by done. apply Hhooks. by right.
Qed.

Lemma clearScenes_run (w : World) :
  (∀ scene, scene ∈ scenes (this w) →
            scene_removeFromStage (scene_heap w scene) = true) →
  Stage.clearScenes w =
  (Ok tt,
   mkWorld (set_changed true (set_scenes [] (this w)))
           (records w) (detach_all (scenes (this w)) (scene_heap w)) (next w)
           (trace w ++ map (λ scene, EvSceneRemoveFromStage scene None) (scenes (this w))
                    ++ [EvResetDisplayCount])).
Proof.
  intros Hhooks. unfold Stage.clearScenes. rewrite get_bind.
  rewrite (bind_ok _ _ _ _ _ (forEach_removeScene _ w Hhooks)).
  unfold mbind, M_bind, log, modify, record_event, set_this.
  cbn [this records scene_heap next trace set_changed set_scenes scenes self id
       name type properties initialized resources changed].
  rewrite remove_each by done. by rewrite <- app_assoc.
Qed.

(** When every owned scene has a detach hook, [clearScenes] succeeds and
    leaves the scene list empty, also when a scene was stored twice: every
    scene the Stage owned has lost its back-reference, the detach hooks ran
    in stored order and the display counter was reset after them, the other
    scenes and the property records are untouched, and the Stage is dirty.
    Afterwards [hasScenes()] answers false and [hasChanges()] true. *)
Theorem clearScenes_detaches_all (w : World) :
  (∀ scene, scene ∈ scenes (this w) →
            scene_removeFromStage (scene_heap w scene) = true) →
  ∃ w',
    Stage.clearScenes w = (Ok tt, w') ∧
    scenes (this w') = [] ∧
    (∀ scene, scene ∈ scenes (this w) → scene_stage (scene_heap w' scene) = None) ∧
    (∀ scene, scene ∉ scenes (this w) → scene_heap w' scene = scene_heap w scene) ∧
    records w' = records w ∧
    trace w' =
      trace w ++ map (λ scene, EvSceneRemoveFromStage scene None) (scenes (this w))
              ++ [EvResetDisplayCount] ∧
    changed (this w') = true ∧
    Stage.hasScenes w' = (Ok false, w') ∧
    Stage.hasChanges w' = (Ok true, w').
Proof.
  intros Hhooks. rewrite clearScenes_run by done.
  eexists. split; [reflexivity|].
  cbn [this scenes set_scenes set_changed changed scene_heap records trace].
  split_and!; try done.
  - intros scene Hin. by apply detach_all_lookup.
  - intros scene Hnin. by apply detach_all_lookup.
Qed.

(** ** Loading components *)

Lemma filter_all {A} (P : A → Prop) `{!∀ x, Decision (P x)} (l : list A) :
  Forall P l → filter P l = l.
Proof.
  induction 1 as [|x l Hx _ IH]; [done|]. by rewrite filter_cons_True, IH.
Qed.

Lemma first_defined_NoDup (ks : list string) :
  NoDup ks → JS.first_defined ks = ks.
Proof.
  induction 1 as [|k ks Hk _ IH]; [done|]. cbn [JS.first_defined]. rewrite IH.
  f_equal. apply filter_all, Forall_forall. intros k' Hin ->. done.
Qed.

Lemma keys_plain (fields : list (string * value)) :
  NoDup fields.*1 → Forall (λ k, JS.array_index k = None) fields.*1 →
  JS.keys fields = fields.*1.
Proof.
  intros Hdup Hplain. unfold JS.keys. cbv zeta. rewrite first_defined_NoDup by done.
  rewrite filter_all by done.
  assert (∀ ks, Forall (λ k, JS.array_index k = None) ks →
               omap (λ k, (λ i, (i, k)) <$> JS.array_index k) ks = []) as Hnone.
  { induction 1 as [|k ks Hk _ IH]; [done|]. cbn [omap list_omap]. by rewrite Hk. }
  by rewrite Hnone.
Qed.

Lemma defined_later (fields : list (string * value)) (m : gmap string value) (k : string) :
  k ∉ fields.*1 → foldl (λ m kv, <[kv.1 := kv.2]> m) m fields !! k = m !! k.
Proof.
  revert m. induction fields as [|[k0 v0] fields IH]; intros m Hk; [done|].
  cbn [fmap list_fmap fst] in Hk. apply not_elem_of_cons in Hk as [Hne Hk].
  cbn [foldl fst snd]. rewrite IH by done. by rewrite lookup_insert_ne.
Qed.

Lemma defined_lookup (fields : list (string * value)) (k : string) (v : value) :
  NoDup fields.*1 → (k, v) ∈ fields → JS.defined fields !! k = Some v.
Proof.
  unfold JS.defined. generalize (∅ : gmap string value).
  induction fields as [|[k0 v0] fields IH]; intros m Hdup Hin; [by apply elem_of_nil in Hin|].
  cbn [fmap list_fmap fst] in Hdup. apply NoDup_cons in Hdup as [Hk0 Hdup].
  cbn [foldl fst snd]. apply elem_of_cons in Hin as [[= -> ->]|Hin].
  - rewrite defined_later by done. apply lookup_insert_eq.
  - by apply IH.
Qed.

(** The order of [Object.keys] on
    [{ b: 1, a: 2, 10: null, 2: null, b: 3, '01': null }]: the array
    indices 2 and 10 first, then [b], [a] and ['01'] as they were first
    defined, [b] with its later value. *)
Lemma entries_order :
  JS.entries (VObj [("b", VNum 1); ("a", VNum 2); ("10", VNull); ("2", VNull);
                    ("b", VNum 3); ("01", VNull)])
  = [("2", VNull); ("10", VNull); ("b", VNum 3); ("a", VNum 2); ("01", VNull)].
Proof. vm_compute. reflexivity. Qed.

(** An object whose keys are distinct and none of which is an array index
    lists its entries in the order they were defined. *)
Lemma entries_plain (fields : list (string * value)) :
  NoDup fields.*1 → Forall (λ k, JS.array_index k = None) fields.*1 →
  JS.entries (VObj fields) = fields.
Proof.
  intros Hdup Hplain. cbn [JS.entries]. rewrite keys_plain by done.
  rewrite <- list_fmap_compose. rewrite <- (list_fmap_id fields) at 2.
  apply Forall_fmap_ext, Forall_forall. intros [k v] Hin. cbn [compose fst].
  by rewrite (defined_lookup _ _ _ Hdup Hin).
Qed.

Lemma loadReactors_run (reactors : value) (target : reactor_target) (w : World) :
  JS.truthy reactors = true →
  Stage.loadReactors reactors target w =
  (Ok tt, mkWorld (this w) (records w) (scene_heap w) (next w)
            (trace w ++ reactor_events target reactors)).
Proof.
  intros Htruthy. unfold Stage.loadReactors, reactor_events. rewrite Htruthy.
  assert (js_entries reactors = mret (JS.entries reactors)) as ->
    by (by destruct reactors).
  rewrite mret_bind. apply forEach_log.
Qed.

Lemma loadComponent_run (lib : string → bool) (scene : loc) (c : value) (w : World) :
  named_component c →
  Stage.loadComponent lib scene c w =
  (Ok tt, mkWorld (this w) (records w) (scene_heap w) (next w)
            (trace w ++ component_events lib scene c)).
Proof.
  intros (m & n & -> & Hname).
  unfold Stage.loadComponent, component_events, Stage.prop.
  cbn [get_field JS.own_props]. rewrite !mret_bind, Hname.
  change (default VUndef (Some (VStr n))) with (VStr n).
  cbn [Stage.to_key]. rewrite mret_bind.
  destruct (lib n).
  - rewrite (bind_ok _ _ w
               (record_event
                  (EvSceneAddElement scene n (default VUndef (JS.defined m !! "properties")))
                  w) tt)
      by done.
    destruct (JS.truthy (default VUndef (JS.defined m !! "reactors"))) eqn:Htruthy.
    + rewrite loadReactors_run by done. unfold record_event.
      cbn [this records scene_heap next trace]. by rewrite <- app_assoc.
    + unfold reactor_events. by rewrite Htruthy.
  - reflexivity.
Qed.

Lemma loadComponents_run (lib : string → bool) (scene : loc) (cs : list value)
    (w : World) :
  Forall named_component cs →
  forEach cs (Stage.loadComponent lib scene) w =
  (Ok tt, mkWorld (this w) (records w) (scene_heap w) (next w)
            (trace w ++ flat_map (component_events lib scene) cs)).
Proof.
  intros Hcs. revert w. induction Hcs as [|c cs Hc _ IH]; intros w.
  - cbn [forEach flat_map]. rewrite app_nil_r. by destruct w.
  - cbn [forEach flat_map].
    rewrite (bind_ok _ _ _ _ _ (loadComponent_run lib scene c w Hc)), IH.
    cbn [this records scene_heap next trace]. by rewrite <- app_assoc.
Qed.

(** Loading a list of component descriptions, each an object with a string
    name, never fails and changes nothing but the trace: a name the library
    exports adds the element to the scene and then sets its reactors, one
    call per key in the order of [Object.keys] (for distinct keys none of
    which is an array index, the order in which the record defines them); a
    name it does not export records one warning; and in both cases the
    components after it are still loaded, in order.  A [null] entry in the
    list, though, ends the load with a [TypeError]. *)
Theorem loadComponents_skip_unknown (lib : string → bool) (scene : loc)
    (cs : list value) (w : World) :
  Forall named_component cs →
  js_forEach (VArr cs) (Stage.loadComponent lib scene) w =
    (Ok tt, mkWorld (this w) (records w) (scene_heap w) (next w)
              (trace w ++ flat_map (component_events lib scene) cs)) ∧
  (∀ fields n, JS.defined fields !! "name" = Some (VStr n) → lib n = false →
          component_events lib scene (VObj fields)
          = [EvLoggerWarn "Component not found:" (VStr n)]) ∧
  (∀ fields n, JS.defined fields !! "name" = Some (VStr n) → lib n = true →
          component_events lib scene (VObj fields)
          = EvSceneAddElement scene n (Stage.prop (JS.defined fields) "properties")
            :: reactor_events (OnElement scene n) (Stage.prop (JS.defined fields) "reactors")) ∧
  (∀ target fields,
     NoDup fields.*1 → Forall (λ k, JS.array_index k = None) fields.*1 →
     reactor_events target (VObj fields)
     = map (λ kv, EvSetReactor target kv.1 kv.2) fields) ∧
  ∃ msg, js_forEach (VArr (cs ++ [VNull])) (Stage.loadComponent lib scene) w =
         (Throw (TypeError msg),
          mkWorld (this w) (records w) (scene_heap w) (next w)
            (trace w ++ flat_map (component_events lib scene) cs)).
Proof.
  intros Hcs. split_and!.
  - by apply loadComponents_run.
  - intros m n Hname Hlib. unfold component_events, Stage.prop.
    cbn [JS.own_props]. rewrite Hname.
    change (default VUndef (Some (VStr n))) with (VStr n).
    cbv beta iota. by rewrite Hlib.
  - intros m n Hname Hlib. unfold component_events, Stage.prop.
    cbn [JS.own_props]. rewrite Hname.
    change (default VUndef (Some (VStr n))) with (VStr n).
    cbv beta iota. by rewrite Hlib.
  - intros target fields Hdup Hplain. unfold reactor_events. cbn [JS.truthy].
    by rewrite entries_plain.
  - cbn [js_forEach]. eexists.
    assert (∀ l1 (f : value → M unit) w0 w1 e,
      forEach l1 f w0 = (Ok tt, w1) → f VNull w1 = (Throw e, w1) →
      forEach (l1 ++ [VNull]) f w0 = (Throw e, w1)) as Happ.
    { induction l1 as [|x l1 IH]; intros f w0 w1 e Hrun Hnull.
      - cbn in Hrun. injection Hrun as <-. cbn [app forEach].
        by apply bind_throw.
      - cbn [app forEach] in *. unfold mbind, M_bind in *.
        destruct (f x w0) as [[[]|e'] w2]; [|done]. by apply IH. }
    apply (Happ _ _ _ _ _ (loadComponents_run lib scene cs w Hcs)).
    reflexivity.
Qed.

(** ** Code that leaves the scenes alone *)

Lemma keeps_ret {A} (a : A) : keeps_scenes (mret a : M A).
Proof. intros w. split_and!; try done. exists []. by rewrite app_nil_r. Qed.

Lemma keeps_throw {A} (e : error) : keeps_scenes (throw e : M A).
Proof. intros w. split_and!; try done. exists []. by rewrite app_nil_r. Qed.

Lemma keeps_log (e : event) : keeps_scenes (log e).
Proof. intros w. split_and!; try done. by exists [e]. Qed.

Lemma keeps_modify (f : World → World) :
  (∀ w, scenes (this (f w)) = scenes (this w) ∧ scene_heap (f w) = scene_heap w ∧
        next (f w) = next w ∧ trace (f w) = trace w) →
  keeps_scenes (modify f).
Proof.
  intros Hf w. destruct (Hf w) as (? & ? & ? & Ht).
  split_and!; try done. exists []. by rewrite app_nil_r.
Qed.

Lemma keeps_bind {A B} (m : M A) (f : A → M B) :
  keeps_scenes m → (∀ a, keeps_scenes (f a)) → keeps_scenes (m ≫= f).
Proof.
  intros Hm Hf w. specialize (Hm w). unfold mbind, M_bind.
  destruct (m w) as [[a|e] w1]; cbn [snd] in *; [|done].
  destruct Hm as (Hs & Hh & Hn & t1 & Ht1).
  destruct (Hf a w1) as (Hs' & Hh' & Hn' & t2 & Ht2).
  split_and!; try congruence.
  exists (t1 ++ t2). by rewrite Ht2, Ht1, app_assoc.
Qed.

Lemma keeps_get_bind {B} (f : World → M B) :
  (∀ w, keeps_scenes (f w)) → keeps_scenes (get ≫= f).
Proof. intros Hf w. rewrite get_bind. apply Hf. Qed.

Lemma keeps_forEach {A} (l : list A) (f : A → M unit) :
  (∀ a, keeps_scenes (f a)) → keeps_scenes (forEach l f).
Proof.
  intros Hf. induction l as [|x l IH]; [apply keeps_ret|].
  cbn [forEach]. by apply keeps_bind.
Qed.

Lemma keeps_resource (method : string) : keeps_scenes (Stage.resource method).
Proof.
  unfold Stage.resource. apply keeps_get_bind. intros w.
  destruct (resources (this w)); [apply keeps_ret|apply keeps_throw].
Qed.

Lemma keeps_get_field (v : value) (key : string) : keeps_scenes (get_field v key).
Proof. destruct v; first [apply keeps_ret|apply keeps_throw]. Qed.

Lemma keeps_setSize (width height : value) : keeps_scenes (Stage.setSize width height).
Proof.
  unfold Stage.setSize. apply keeps_get_bind. intros w.
  repeat first
    [ apply keeps_log
    | apply keeps_resource
    | apply keeps_forEach; intros ?
    | apply keeps_bind; [|intros ?] ].
Qed.

Lemma keeps_Display_update (p : value) : keeps_scenes (Stage.Display_update p).
Proof.
  unfold Stage.Display_update. apply keeps_get_bind. intros w. cbv zeta.
  destruct (map_to_list _); [apply keeps_ret|].
  repeat first
    [ apply keeps_ret
    | apply keeps_modify; done
    | apply keeps_bind; [|intros ?] ].
Qed.

(** [update] never touches the scene list or the scenes, whatever it is
    given and whether it succeeds or throws. *)
Lemma keeps_update (p : value) : keeps_scenes (Stage.update p).
Proof.
  unfold Stage.update.
  apply keeps_bind; [apply keeps_Display_update|]. intros changed0.
  apply keeps_bind; [|intros ?; apply keeps_ret].
  destruct changed0; [|apply keeps_ret].
  apply keeps_bind; [apply keeps_get_field|]. intros pw.
  apply keeps_bind; [apply keeps_get_field|]. intros ph.
  apply keeps_bind.
  { destruct (_ || _); [|apply keeps_ret].
    apply keeps_get_bind. intros w. apply keeps_setSize. }
  intros _. apply keeps_bind; [apply keeps_get_field|]. intros pb.
  destruct (negb _); [|apply keeps_ret].
  apply keeps_bind; [apply keeps_resource|]. intros r.
  apply keeps_bind; [apply keeps_log|]. intros _.
  by apply keeps_modify.
Qed.

(** ** Loading scenes *)

Section LoadScenes.

Variables CANVAS_WIDTH CANVAS_HEIGHT : float.
Variables displayLibrary effectsLibrary : string → bool.
Variable Scene_defaultProperties : gmap string value.

Abbreviation load_scene :=
  (Stage.loadScene displayLibrary effectsLibrary Scene_defaultProperties).
Abbreviation load_config :=
  (Stage.loadConfig CANVAS_WIDTH CANVAS_HEIGHT displayLibrary effectsLibrary
     Scene_defaultProperties).

Lemma load_components (lib : string → bool) (scene : loc) (v : value) (w : World) :
  components_ok v →
  (if JS.truthy v then js_forEach v (Stage.loadComponent lib scene) else mret tt) w =
  (Ok tt, mkWorld (this w) (records w) (scene_heap w) (next w)
            (trace w ++ components_events lib scene v)).
Proof.
  intros [Hfalsy|(cs & -> & Hcs)].
  - rewrite Hfalsy. destruct v; try done; cbn [components_events];
      rewrite app_nil_r; by destruct w.
  - cbn [JS.truthy js_forEach components_events]. by apply loadComponents_run.
Qed.

Lemma loadScene_run (c : value) (w : World) :
  scene_ok c →
  ∃ w', load_scene c w = (Ok tt, w') ∧
        this w' = set_changed true (set_scenes (scenes (this w) ++ [next w]) (this w)) ∧
        records w' = records w ∧
        (∀ a, scene_heap w' a =
              if decide (a = next w) then scene_record Scene_defaultProperties (self (this w)) c
              else scene_heap w a) ∧
        next w' = S (next w) ∧
        trace w' = trace w ++ scene_events displayLibrary effectsLibrary (self (this w)) (next w) c.
Proof.
  intros (m & -> & Hdisplays & Heffects).
  unfold Stage.loadScene. cbn [get_field JS.own_props]. rewrite mret_bind.
  pose (new_scene :=
          mkScene (JS.own_props (default VUndef (JS.defined m !! "properties"))
                     ∪ Scene_defaultProperties) None false true true).
  pose (w1 := mkWorld (this w) (records w) (<[next w := new_scene]> (scene_heap w))
                     (S (next w)) (trace w)).
  rewrite (bind_ok _ _ w w1 (next w)) by done.
  rewrite (bind_ok _ _ _ _ _ (addScene_run Scene_defaultProperties w1 (next w) None)).
  cbv zeta. subst w1.
  cbn [this records scene_heap next trace self].
  rewrite fn_lookup_insert. subst new_scene.
  cbn [scene_addToStage Stage.set_scene_stage scene_properties scene_changed
       scene_removeFromStage].
  rewrite mret_bind.
  rewrite (bind_ok _ _ _ _ _ (load_components displayLibrary (next w) _ _ Hdisplays)).
  rewrite mret_bind.
  rewrite (bind_ok _ _ _ _ _ (load_components effectsLibrary (next w) _ _ Heffects)).
  rewrite mret_bind.
  cbn [this records scene_heap next trace].
  unfold scene_events, scene_record, Stage.prop. cbn [JS.own_props].
  destruct (JS.truthy (default VUndef (JS.defined m !! "reactors"))) eqn:Htruthy.
  - rewrite loadReactors_run by done. eexists. split; [reflexivity|].
    cbn [this records scene_heap next trace]. split_and!; try done.
    + intros a. destruct (decide (a = next w)) as [->|Hne].
      * by rewrite fn_lookup_insert.
      * by rewrite !fn_lookup_insert_ne.
    + by rewrite <- !app_assoc.
  - eexists. split; [reflexivity|].
    cbn [this records scene_heap next trace]. split_and!; try done.
    + intros a. destruct (decide (a = next w)) as [->|Hne].
      * by rewrite fn_lookup_insert.
      * by rewrite !fn_lookup_insert_ne.
    + unfold reactor_events. rewrite Htruthy, app_nil_r.
      by rewrite <- !app_assoc.
Qed.

Lemma loadScenes_run (cs : list value) (w : World) :
  Forall scene_ok cs →
  ∃ w', forEach cs load_scene w = (Ok tt, w') ∧
        scenes (this w') = scenes (this w) ++ seq (next w) (length cs) ∧
        self (this w') = self (this w) ∧
        changed (this w') = match cs with [] => changed (this w) | _ => true end ∧
        records w' = records w ∧
        (∀ a, a < next w → scene_heap w' a = scene_heap w a) ∧
        (∀ i c, cs !! i = Some c →
                scene_heap w' (next w + i) = scene_record Scene_defaultProperties (self (this w)) c) ∧
        next w' = next w + length cs ∧
        trace w' = trace w ++ scenes_events displayLibrary effectsLibrary (self (this w)) (next w) cs.
Proof.
  intros Hcs. revert w. induction Hcs as [|c cs Hc _ IH]; intros w.
  - exists w. cbn [forEach length seq scenes_events]. rewrite !app_nil_r.
    split_and!; try done; lia.
  - destruct (loadScene_run c w Hc) as (w1 & Hrun & Hthis & Hrec & Hheap & Hnext & Htrace).
    destruct (IH w1) as (w' & Hrun' & Hs & Hself & Hch & Hrec' & Hold & Hnew & Hnext' & Htrace').
    exists w'. cbn [forEach]. rewrite (bind_ok _ _ _ _ _ Hrun).
    split; [exact Hrun'|].
    assert (self (this w1) = self (this w)) as Hself1 by (by rewrite Hthis).
    assert (scenes (this w1) = scenes (this w) ++ [next w]) as Hs1
      by (by rewrite Hthis).
    rewrite Hself1 in Hself, Hnew, Htrace'. rewrite Hs1 in Hs.
    rewrite Hnext in *. cbn [length seq scenes_events].
    split_and!.
    + by rewrite Hs, <- app_assoc.
    + done.
    + rewrite Hch, Hthis. by destruct cs.
    + congruence.
    + intros a Ha. rewrite Hold by lia. rewrite Hheap. by rewrite decide_False by lia.
    + intros [|i] c' Hlook.
      * injection Hlook as <-. rewrite Nat.add_0_r, Hold by lia.
        rewrite Hheap. by rewrite decide_True.
      * replace (next w + S i) with (S (next w) + i) by lia.
        by apply Hnew.
    + lia.
    + rewrite Htrace', Htrace. by rewrite <- app_assoc.
Qed.

(** Loading a configuration object whose [scenes] is an array of scene
    descriptions, on a Stage whose scenes all have a detach hook: the scenes
    owned before are detached and the scene list becomes the new scenes, one
    per description and in the order of the array, each built from its
    properties over the class defaults, attached to this Stage, and filled
    with its displays, effects and reactors in this order, the reactors of
    a record in the order of [Object.keys].  This holds whether or not the
    update of the Stage's properties that ends the load succeeds: that step
    never touches the scenes. *)
Theorem loadConfig_replaces_scenes (fields : list (string * value)) (cs : list value)
    (w : World) :
  (∀ scene, scene ∈ scenes (this w) →
            scene_removeFromStage (scene_heap w scene) = true ∧ scene < next w) →
  JS.defined fields !! "scenes" = Some (VArr cs) →
  Forall scene_ok cs →
  ∃ r w' t,
    load_config (VObj fields) w = (r, w') ∧
    scenes (this w') = seq (next w) (length cs) ∧
    next w' = next w + length cs ∧
    (∀ i c, cs !! i = Some c →
            scene_heap w' (next w + i) = scene_record Scene_defaultProperties (self (this w)) c) ∧
    (∀ scene, scene ∈ scenes (this w) → scene_stage (scene_heap w' scene) = None) ∧
    trace w' =
      trace w ++ map (λ scene, EvSceneRemoveFromStage scene None) (scenes (this w))
              ++ [EvResetDisplayCount]
              ++ scenes_events displayLibrary effectsLibrary (self (this w)) (next w) cs ++ t.
Proof.
  intros Howned Hscenes Hcs.
  assert (∀ scene, scene ∈ scenes (this w) →
                   scene_removeFromStage (scene_heap w scene) = true) as Hhooks
    by (intros scene Hin; by apply Howned).
  unfold Stage.loadConfig. cbn [JS.typeof String.eqb Ascii.eqb Bool.eqb andb].
  rewrite (bind_ok _ _ _ _ _ (clearScenes_run w Hhooks)).
  cbn [get_field JS.own_props]. rewrite mret_bind, Hscenes.
  change (default VUndef (Some (VArr cs))) with (VArr cs).
  cbn [JS.truthy js_forEach].
  set (w0 := mkWorld _ _ _ _ _).
  destruct (loadScenes_run cs w0 Hcs)
    as (w1 & Hrun & Hs & Hself & _ & _ & Hold & Hnew & Hnext & Htrace).
  rewrite (bind_ok _ _ _ _ _ Hrun). rewrite mret_bind.
  set (tail := if JS.truthy _ then _ else _).
  assert (keeps_scenes tail) as Hkeeps.
  { subst tail. destruct (JS.truthy _).
    - apply keeps_bind; [apply keeps_get_field|]. intros p.
      apply keeps_bind; [apply keeps_update|]. intros _. apply keeps_ret.
    - apply keeps_bind; [apply keeps_update|]. intros _. apply keeps_ret. }
  destruct (Hkeeps w1) as (Hs' & Hh' & Hn' & t & Ht').
  destruct (tail w1) as [r w'] eqn:Htail. cbn [snd] in *.
  exists r, w', t. split; [reflexivity|].
  subst w0. cbn [this scenes set_scenes set_changed scene_heap next trace self] in *.
  split_and!.
  - by rewrite Hs', Hs.
  - by rewrite Hn', Hnext.
  - intros i c Hlook. rewrite Hh'. by apply Hnew.
  - intros scene Hin. rewrite Hh', Hold by (by apply Howned).
    by apply detach_all_lookup.
  - rewrite Ht', Htrace. by rewrite <- !app_assoc.
Qed.

End LoadScenes.

Section LoadNull.

Variables CANVAS_WIDTH CANVAS_HEIGHT : float.
Variables displayLibrary effectsLibrary : string → bool.
Variable Scene_defaultProperties : gmap string value.

(** [loadConfig(null)] passes the test [typeof config === 'object']: on a
    Stage whose scenes all have a detach hook, every scene is detached and
    the scene list emptied before the read of [config.scenes] throws a
    [TypeError]; no validation error is reported and the Stage is left
    dirty. *)
Theorem loadConfig_null_destroys_scenes (w : World) :
  (∀ scene, scene ∈ scenes (this w) →
            scene_removeFromStage (scene_heap w scene) = true) →
  ∃ msg w',
    Stage.loadConfig CANVAS_WIDTH CANVAS_HEIGHT displayLibrary effectsLibrary
      Scene_defaultProperties VNull w = (Throw (TypeError msg), w') ∧
    scenes (this w') = [] ∧
    (∀ scene, scene ∈ scenes (this w) → scene_stage (scene_heap w' scene) = None) ∧
    changed (this w') = true ∧
    trace w' =
      trace w ++ map (λ scene, EvSceneRemoveFromStage scene None) (scenes (this w))
              ++ [EvResetDisplayCount].
Proof.
  intros Hhooks. unfold Stage.loadConfig.
  cbn [JS.typeof String.eqb Ascii.eqb Bool.eqb andb].
  rewrite (bind_ok _ _ _ _ _ (clearScenes_run w Hhooks)).
  eexists _, _. split; [reflexivity|].
  cbn [this scenes set_scenes set_changed changed scene_heap trace].
  split_and!; try done.
  intros scene Hin. by apply detach_all_lookup.
Qed.

End LoadNull.

(** ** Updating the properties *)

Lemma Display_update_same (w : World) (p : value) :
  (∀ key v, JS.own_props p !! key = Some v →
            JS.strict_eq (Stage.prop (Stage.this_properties w) key) v = true) →
  Stage.Display_update p w = (Ok false, w).
Proof.
  intros Hsame. unfold Stage.Display_update.
  rewrite get_bind. cbv zeta.
  set (delta := filter _ (JS.own_props p)).
  assert (delta = ∅) as ->.
  { subst delta. apply map_empty_filter. intros key v Hp Hdiff.
    cbn [fst snd] in Hdiff. rewrite (Hsame key v Hp) in Hdiff. done. }
  by rewrite map_to_list_empty.
Qed.

(** An update none of whose keys differs from the current value (such as
    [update({})]) answers false and leaves the Stage, the stores and the trace
    exactly as they were: nothing is resized, the colour object is not
    touched and the Stage is not marked dirty. *)
Theorem update_without_change (w : World) (p : value) :
  (∀ key v, JS.own_props p !! key = Some v →
            JS.strict_eq (Stage.prop (Stage.this_properties w) key) v = true) →
  Stage.update p w = (Ok false, w).
Proof.
  intros Hsame. unfold Stage.update.
  by rewrite (bind_ok _ _ _ _ _ (Display_update_same w p Hsame)).
Qed.

(** What [Display.update] writes: the keys that differ take the value
    provided, every other key keeps its value. *)
Lemma Display_update_writes (w : World) (p : value) (key0 : string) (v0 : value) :
  JS.own_props p !! key0 = Some v0 →
  JS.strict_eq (Stage.prop (Stage.this_properties w) key0) v0 = false →
  ∃ w1, Stage.Display_update p w = (Ok true, w1) ∧
        scenes (this w1) = scenes (this w) ∧ resources (this w1) = resources (this w) ∧
        changed (this w1) = true ∧ scene_heap w1 = scene_heap w ∧
        trace w1 = trace w ∧
        (∀ key v, JS.own_props p !! key = Some v →
                  JS.strict_eq (Stage.prop (Stage.this_properties w) key) v = false →
                  Stage.this_properties w1 !! key = Some v) ∧
        (∀ key, JS.own_props p !! key = None →
                Stage.this_properties w1 !! key = Stage.this_properties w !! key).
Proof.
  intros Hp Hdiff. unfold Stage.Display_update.
  rewrite get_bind. cbv zeta.
  set (delta := filter _ (JS.own_props p)).
  assert (delta !! key0 = Some v0) as Hdelta.
  { subst delta. by apply map_lookup_filter_Some. }
  destruct (map_to_list delta) as [|kv kvs] eqn:Hlist.
  { apply map_to_list_empty_iff in Hlist. rewrite Hlist in Hdelta.
    by rewrite lookup_empty in Hdelta. }
  eexists. split; [reflexivity|].
  unfold Stage.this_properties, mbind, M_bind, modify, mret, M_ret, set_this,
    set_record, set_changed.
  cbn [this records properties scenes resources changed scene_heap trace snd].
  rewrite fn_lookup_insert. split_and!; try done.
  - intros key v Hkey Hkdiff. apply lookup_union_Some_l.
    subst delta. by apply map_lookup_filter_Some.
  - intros key Hkey. apply lookup_union_r.
    subst delta. apply map_lookup_filter_None. left. done.
Qed.

(** On an initialised Stage, an update that changes some key and provides a
    width or a height (changed or not) resizes: every scene, the composer and
    the buffers are set to the width and height the properties hold after the
    update, so a width given alone is paired with the height the Stage
    already had.  When the update provides a background colour as well, the
    colour object is set to it after the resize, and not touched otherwise.
    The update answers true and marks the Stage dirty. *)
Theorem update_resizes_to_merged_size (w : World) (r : Resources) (p : value)
    (key0 : string) (v0 : value) :
  resources (this w) = Some r →
  JS.own_props p !! key0 = Some v0 →
  JS.strict_eq (Stage.prop (Stage.this_properties w) key0) v0 = false →
  JS.strict_eq (Stage.prop (JS.own_props p) "width") VUndef = false ∨
  JS.strict_eq (Stage.prop (JS.own_props p) "height") VUndef = false →
  ∃ w',
    Stage.update p w = (Ok true, w') ∧
    changed (this w') = true ∧
    (∀ key v, JS.own_props p !! key = Some v →
              JS.strict_eq (Stage.prop (Stage.this_properties w) key) v = false →
              Stage.this_properties w' !! key = Some v) ∧
    (∀ key, JS.own_props p !! key = None →
            Stage.this_properties w' !! key = Stage.this_properties w !! key) ∧
    trace w' =
      trace w
      ++ map (λ scene, EvSceneSetSize scene
                         (Stage.prop (Stage.this_properties w') "width")
                         (Stage.prop (Stage.this_properties w') "height"))
             (scenes (this w))
      ++ resize_events (Stage.prop (Stage.this_properties w') "width")
                       (Stage.prop (Stage.this_properties w') "height")
      ++ (if JS.strict_eq (Stage.prop (JS.own_props p) "backgroundColor") VUndef
          then [] else [EvColorSet (Stage.prop (JS.own_props p) "backgroundColor")]) ∧
    resources (this w') =
      (if JS.strict_eq (Stage.prop (JS.own_props p) "backgroundColor") VUndef
       then Some r
       else Some (mkResources (canvas r) (Stage.prop (JS.own_props p) "backgroundColor"))).
Proof.
  intros Hres Hp Hdiff Hsize.
  destruct (Display_update_writes w p key0 v0 Hp Hdiff)
    as (w1 & Hrun & Hs & Hres1 & Hch & _ & Ht & Hwritten & Hkept).
  rewrite Hres in Hres1.
  unfold Stage.update. rewrite (bind_ok _ _ _ _ _ Hrun).
  assert (∀ k, get_field p k = mret (default VUndef (JS.own_props p !! k))) as Hget.
  { intros k. destruct p; try done; simpl in Hp; by rewrite lookup_empty in Hp. }
  pose (width := Stage.prop (Stage.this_properties w1) "width").
  pose (height := Stage.prop (Stage.this_properties w1) "height").
  pose (color := Stage.prop (JS.own_props p) "backgroundColor").
  pose (sized := mkWorld (this w1) (records w1) (scene_heap w1) (next w1)
                   (trace w1 ++ map (λ scene, EvSceneSetSize scene width height)
                                    (scenes (this w1))
                            ++ resize_events width height)).
  match goal with
  | |- ∃ _, (?body ≫= _) w1 = _ ∧ _ =>
      assert (body w1 =
              (Ok tt, if JS.strict_eq color VUndef then sized
                      else set_this (set_resources (mkResources (canvas r) color))
                             (record_event (EvColorSet color) sized))) as Hbody
  end.
  { rewrite !Hget, !mret_bind.
    assert (negb (JS.strict_eq (default VUndef (JS.own_props p !! "width")) VUndef)
            || negb (JS.strict_eq (default VUndef (JS.own_props p !! "height")) VUndef)
            = true) as ->.
    { unfold Stage.prop in Hsize. destruct Hsize as [-> | ->]; [done|apply orb_true_r]. }
    assert ((get ≫= λ w0, Stage.setSize (Stage.prop (Stage.this_properties w0) "width")
                            (Stage.prop (Stage.this_properties w0) "height")) w1
            = (Ok tt, sized)) as Hsized.
    { rewrite get_bind. by apply setSize_with_resources with r. }
    rewrite (bind_ok _ _ _ _ _ Hsized).
    rewrite mret_bind. fold (Stage.prop (JS.own_props p) "backgroundColor"). fold color.
    destruct (JS.strict_eq color VUndef); cbn [negb]; [reflexivity|].
    unfold Stage.resource, mbind, M_bind, get, log, modify.
    change (resources (this sized)) with (resources (this w1)). by rewrite Hres1. }
  rewrite (bind_ok _ _ _ _ _ Hbody).
  eexists. split; [reflexivity|].
  fold color. unfold Stage.this_properties in *. subst width height sized.
  destruct (JS.strict_eq color VUndef);
    unfold set_this, set_resources, record_event;
    cbn [this records trace changed resources properties]; rewrite Ht, Hs.
  - rewrite app_nil_r. by split_and!.
  - rewrite <- !app_assoc. by split_and!.
Qed.

(** An update that changes the background colour and gives no size: before
    [init] the property is written and the Stage marked dirty, and then the
    call throws on the undefined colour object; once the Stage is
    initialised the call succeeds, the colour object is set to the new
    colour and nothing is resized. *)
Theorem update_backgroundColor (w : World) (p : value) (v : value) :
  JS.own_props p !! "backgroundColor" = Some v →
  JS.strict_eq v VUndef = false →
  JS.strict_eq (Stage.prop (Stage.this_properties w) "backgroundColor") v = false →
  JS.own_props p !! "width" = None →
  JS.own_props p !! "height" = None →
  ∃ res w',
    Stage.update p w = (res, w') ∧
    Stage.this_properties w' !! "backgroundColor" = Some v ∧
    changed (this w') = true ∧
    match resources (this w) with
    | None => (∃ msg, res = Throw (TypeError msg)) ∧ trace w' = trace w ∧
              resources (this w') = None
    | Some r => res = Ok true ∧ trace w' = trace w ++ [EvColorSet v] ∧
                resources (this w') = Some (mkResources (canvas r) v)
    end.
Proof.
  intros Hp Hdef Hdiff Hwidth Hheight.
  destruct (Display_update_writes w p _ v Hp Hdiff)
    as (w1 & Hrun & _ & Hres1 & Hch & _ & Ht & Hwritten & _).
  unfold Stage.update. rewrite (bind_ok _ _ _ _ _ Hrun).
  assert (∀ k, get_field p k = mret (default VUndef (JS.own_props p !! k))) as Hget.
  { intros k. destruct p; try done; simpl in Hp; by rewrite lookup_empty in Hp. }
  match goal with
  | |- ∃ _ _, (?body ≫= _) w1 = _ ∧ _ =>
      assert (body w1 =
              match resources (this w) with
              | None => (Throw (TypeError "Cannot read properties of undefined (reading 'set')"), w1)
              | Some r =>
                  (Ok tt, set_this (set_resources (mkResources (canvas r) v))
                            (record_event (EvColorSet v) w1))
              end) as Hbody
  end.
  { rewrite !Hget, !mret_bind, Hwidth, Hheight.
    change (default VUndef None) with VUndef.
    cbn [JS.strict_eq negb orb]. rewrite mret_bind.
    rewrite mret_bind, Hp.
    change (default VUndef (Some v)) with v. rewrite Hdef. cbn [negb].
    unfold Stage.resource. rewrite <- Hres1.
    unfold mbind, M_bind, get. by destruct (resources (this w1)). }
  destruct (resources (this w)) as [r|].
  - rewrite (bind_ok _ _ _ _ _ Hbody).
    eexists _, _. split; [reflexivity|].
    unfold Stage.this_properties in *.
    unfold set_this, set_resources, record_event.
    cbn [this records trace changed resources properties].
    rewrite Ht, Hch. split_and!; try done. by apply Hwritten.
  - rewrite (bind_throw _ _ _ _ _ Hbody).
    eexists _, _. split; [reflexivity|].
    rewrite Ht, Hch, Hres1. split_and!; try done; [by apply Hwritten|by eexists].
Qed.

(** ** Shifting back *)

Lemma indexOf_NoDup (l : list loc) (x : loc) (n : nat) :
  NoDup l → l !! n = Some x → array.indexOf l x = Z.of_nat n.
Proof.
  intros Hnodup Hn. apply indexOf_first; [done|].
  intros k Hk Hlook. pose proof (NoDup_lookup _ _ _ _ Hnodup Hlook Hn). lia.
Qed.

Lemma swap_back (l : list loc) (n m : nat) (x y : loc) :
  l !! n = Some x → l !! m = Some y → n ≠ m →
  <[n := x]> (<[m := y]> (<[m := x]> (<[n := y]> l))) = l.
Proof.
  intros Hn Hm Hne.
  pose proof (lookup_lt_Some _ _ _ Hn). pose proof (lookup_lt_Some _ _ _ Hm).
  apply list_eq. intros k.
  destruct (decide (k = n)) as [->|Hkn].
  - rewrite list_lookup_insert_eq by (by rewrite !length_insert). done.
  - rewrite list_lookup_insert_ne by done.
    destruct (decide (k = m)) as [->|Hkm].
    + rewrite list_lookup_insert_eq by (by rewrite !length_insert). done.
    + by rewrite !list_lookup_insert_ne by done.
Qed.

(** On a Stage that stores no scene twice, shifting an owned scene onto
    another slot of the list swaps the two scenes, answers true and marks the
    Stage dirty; shifting it back by the opposite amount answers true again
    and restores the scene list. *)
Theorem shiftScene_there_and_back (w : World) (scene other : loc) (n m : nat) :
  NoDup (scenes (this w)) →
  scenes (this w) !! n = Some scene →
  scenes (this w) !! m = Some other →
  n ≠ m →
  ∃ w1 w2,
    Stage.shiftScene scene (Z.of_nat m - Z.of_nat n) w = (Ok true, w1) ∧
    scenes (this w1) = <[m := scene]> (<[n := other]> (scenes (this w))) ∧
    changed (this w1) = true ∧
    Stage.shiftScene scene (Z.of_nat n - Z.of_nat m) w1 = (Ok true, w2) ∧
    scenes (this w2) = scenes (this w) ∧
    changed (this w2) = true.
Proof.
  intros Hnodup Hn Hm Hne.
  pose proof (lookup_lt_Some _ _ _ Hn) as Hnlt.
  pose proof (lookup_lt_Some _ _ _ Hm) as Hmlt.
  pose proof (indexOf_NoDup _ _ _ Hnodup Hn) as Hidx.
  set (l1 := <[m := scene]> (<[n := other]> (scenes (this w)))).
  assert (l1 !! m = Some scene) as Hm1.
  { subst l1. apply list_lookup_insert_eq. by rewrite length_insert. }
  assert (l1 !! n = Some other) as Hn1.
  { subst l1. rewrite list_lookup_insert_ne by done. by apply list_lookup_insert_eq. }
  assert (array.indexOf l1 scene = Z.of_nat m) as Hidx1.
  { apply indexOf_first; [done|]. intros k Hk Hlook. subst l1.
    rewrite list_lookup_insert_ne in Hlook by lia.
    destruct (decide (k = n)) as [->|Hkn].
    - rewrite list_lookup_insert_eq in Hlook by done. injection Hlook as ->.
      by apply Hne, (NoDup_lookup _ _ _ scene Hnodup).
    - rewrite list_lookup_insert_ne in Hlook by done.
      by apply Hkn, (NoDup_lookup _ _ _ scene Hnodup). }
  rewrite shiftScene_run. cbv zeta. rewrite Hidx.
  replace (Z.of_nat n + (Z.of_nat m - Z.of_nat n))%Z with (Z.of_nat m) by lia.
  rewrite (swap_in_range _ n m scene other) by done. fold l1. rewrite Hidx1.
  destruct (Z.eqb_spec (Z.of_nat m) (Z.of_nat n)) as [|_]; [lia|].
  eexists _, _. split; [reflexivity|].
  cbn [this scenes changed set_this set_scenes set_changed negb].
  split; [done|]. split; [done|].
  rewrite shiftScene_run. cbv zeta.
  cbn [this scenes changed set_this set_scenes set_changed].
  rewrite Hidx1.
  replace (Z.of_nat m + (Z.of_nat n - Z.of_nat m))%Z with (Z.of_nat n) by lia.
  rewrite (swap_in_range _ m n scene other) by done. subst l1.
  rewrite swap_back by done. rewrite Hidx.
  destruct (Z.eqb_spec (Z.of_nat n) (Z.of_nat m)) as [|_]; [lia|].
  split; [reflexivity|]. done.
Qed.

(** ** Finding scenes and elements *)

Section Queries.

Variable scene_id : loc → value.
Variable element : Type.
Variable Scene_getElementById : loc → value → option element.

Abbreviation get_scene := (Stage.getScene scene_id).
Abbreviation get_element := (Stage.getElementById scene_id element Scene_getElementById).

Lemma find_first (f : loc → bool) (l : list loc) :
  match List.find f l with
  | Some x => ∃ l1 l2, l = l1 ++ x :: l2 ∧ f x = true ∧ ∀ y, y ∈ l1 → f y = false
  | None => ∀ y, y ∈ l → f y = false
  end.
Proof.
  induction l as [|y l IH]; cbn [List.find].
  - by intros y ?%elem_of_nil.
  - destruct (f y) eqn:Hy.
    + exists [], l. split_and!; [done|done|by intros ? ?%elem_of_nil].
    + destruct (List.find f l) as [x|].
      * destruct IH as (l1 & l2 & -> & Hx & Hl1). exists (y :: l1), l2.
        split_and!; [done|done|]. intros z [->|?]%elem_of_cons; auto.
      * intros z [->|?]%elem_of_cons; auto.
Qed.

(** [getScene(id)] reads and changes nothing; it answers a scene the Stage
    owns whose id is [id], the first one in stored order, and it answers
    nothing exactly when no owned scene has that id. *)
Theorem getScene_first_match (w : World) (id0 : value) :
  ∃ found, get_scene id0 w = (Ok found, w) ∧
    match found with
    | Some scene =>
        ∃ l1 l2, scenes (this w) = l1 ++ scene :: l2 ∧
                 JS.strict_eq (scene_id scene) id0 = true ∧
                 ∀ other, other ∈ l1 → JS.strict_eq (scene_id other) id0 = false
    | None => ∀ other, other ∈ scenes (this w) →
                       JS.strict_eq (scene_id other) id0 = false
    end.
Proof.
  unfold Stage.getScene. rewrite get_bind. eexists. split; [reflexivity|].
  apply (find_first (λ n, JS.strict_eq (scene_id n) id0)).
Qed.

Lemma find_app_None (f : loc → bool) (l : list loc) (x : loc) :
  (∀ y, y ∈ l → f y = false) → List.find f (l ++ [x]) = if f x then Some x else None.
Proof.
  induction l as [|y l IH]; intros Hl; cbn [app List.find]; [done|].
  rewrite (Hl y) by (by left). apply IH. intros z Hz. apply Hl. by right.
Qed.

Lemma find_none (f : loc → bool) (l : list loc) :
  (∀ y, y ∈ l → f y = false) → List.find f l = None.
Proof.
  induction l as [|y l IH]; intros Hl; cbn [List.find]; [done|].
  rewrite (Hl y) by (by left). apply IH. intros z Hz. apply Hl. by right.
Qed.

(** [getScene] follows the scene list.  When no owned scene carries the id
    of a scene (an id equal to itself), [getScene] of that id answers nothing
    before the scene is added and the scene after [addScene]; and when the
    scene is owned once and no other owned scene carries its id, it answers
    nothing again once [removeScene] has run, whether [removeScene] succeeded
    or threw for lack of a detach hook. *)
Theorem getScene_follows_scene_list (sd : gmap string value) (w : World) (scene : loc) :
  JS.strict_eq (scene_id scene) (scene_id scene) = true →
  (∀ other, other ∈ scenes (this w) → other ≠ scene →
            JS.strict_eq (scene_id other) (scene_id scene) = false) →
  (scene ∉ scenes (this w) →
   get_scene (scene_id scene) w = (Ok None, w) ∧
   ∃ w', (Stage.addScene sd (Some scene) None ;; get_scene (scene_id scene)) w
         = (Ok (Some scene), w')) ∧
  (NoDup (scenes (this w)) →
   ∃ r w', Stage.removeScene scene w = (r, w') ∧
           get_scene (scene_id scene) w' = (Ok None, w')).
Proof.
  intros Hrefl Hothers. split.
  - intros Hnin.
    assert (∀ y, y ∈ scenes (this w) →
                 JS.strict_eq (scene_id y) (scene_id scene) = false) as Hnone.
    { intros y Hy. apply Hothers; [done|]. by intros ->. }
    split.
    + unfold Stage.getScene. rewrite get_bind. by rewrite find_none.
    + rewrite (bind_ok _ _ _ _ _ (addScene_run sd w scene None)). cbv zeta.
      unfold Stage.getScene. rewrite get_bind.
      cbn [this scenes set_scenes set_changed].
      rewrite find_app_None by done. rewrite Hrefl. by eexists.
  - intros Hnodup.
    assert (∀ y, y ∈ array.remove (scenes (this w)) scene →
                 JS.strict_eq (scene_id y) (scene_id scene) = false) as Hnone;
      [|rewrite removeScene_run; cbv zeta;
        destruct (scene_removeFromStage (scene_heap w scene));
        eexists _, _; (split; [reflexivity|]);
        unfold Stage.getScene; rewrite get_bind;
        cbn [set_this record_event this scenes set_scenes set_changed];
        by rewrite find_none].
    intros y Hy. apply Hothers.
    + destruct (decide (scene ∈ scenes (this w))) as [Hin|Hnin].
      * destruct (remove_elem _ _ Hin) as (l1 & l2 & Hsplit & _ & Hrem).
        rewrite Hrem in Hy. rewrite Hsplit.
        apply elem_of_app in Hy as [?|?]; apply elem_of_app; [by left|].
        right. by right.
      * revert Hy. clear -Hnin. induction (scenes (this w)) as [|z l IH]; [done|].
        apply not_elem_of_cons in Hnin as [Hne Hnin].
        cbn [array.remove]. rewrite decide_False by done.
        intros [->|?]%elem_of_cons; [by left|]. right. by apply IH.
    + intros ->.
      destruct (decide (scene ∈ scenes (this w))) as [Hin|Hnin].
      * destruct (remove_elem _ _ Hin) as (l1 & l2 & Hsplit & Hl1 & Hrem).
        rewrite Hrem in Hy. rewrite Hsplit in Hnodup.
        apply NoDup_app in Hnodup as (_ & Hdisj & Hl2).
        apply NoDup_cons in Hl2 as [Hl2 _].
        apply elem_of_app in Hy as [?|?]; done.
      * apply Hnin. revert Hy. clear. induction (scenes (this w)) as [|z l IH];
          cbn [array.remove]; [done|].
        destruct (decide (z = scene)) as [->|?]; [by left|].
        intros [->|?]%elem_of_cons; [by left|]. right. by apply IH.
Qed.

Lemma getElementById_fold (id0 : value) (l : list loc) (found : option (loc + element)) :
  foldl (λ found scene,
           match found with
           | Some e => Some e
           | None => inr <$> Scene_getElementById scene id0
           end) found l =
  match found with
  | Some e => Some e
  | None => inr <$> head (omap (λ scene, Scene_getElementById scene id0) l)
  end.
Proof.
  revert found. induction l as [|x l IH]; intros found; cbn [foldl].
  - by destruct found.
  - rewrite IH. destruct found as [e|]; [done|]. simpl.
    destruct (Scene_getElementById x id0) as [e|]; done.
Qed.

(** [getElementById(id)] reads and changes nothing.  A scene whose id is
    [id] wins: it is the answer, whatever elements the scenes hold.
    Otherwise the answer is the element found by the first scene, in stored
    order, that has one for [id], and nothing when no scene has one. *)
Theorem getElementById_prefers_scene (w : World) (id0 : value) :
  ∃ found, get_element id0 w = (Ok found, w) ∧
    (∀ scene, get_scene id0 w = (Ok (Some scene), w) → found = Some (inl scene)) ∧
    (get_scene id0 w = (Ok None, w) →
     found = inr <$> head (omap (λ scene, Scene_getElementById scene id0)
                                (scenes (this w)))).
Proof.
  assert (get_scene id0 w =
          (Ok (List.find (λ n, JS.strict_eq (scene_id n) id0) (scenes (this w))), w))
    as Hscene by done.
  unfold Stage.getElementById. rewrite (bind_ok _ _ _ _ _ Hscene), get_bind.
  rewrite Hscene.
  eexists. split; [reflexivity|]. rewrite getElementById_fold.
  split.
  - intros scene Hfound. injection Hfound as ->. done.
  - intros Hnone. injection Hnone as ->. done.
Qed.

End Queries.

(** ** The further properties at concrete stages *)

Lemma demo_stage_hooks (scene : loc) :
  scene ∈ scenes (this demo_stage) →
  scene_removeFromStage (scene_heap demo_stage scene) = true ∧ scene < next demo_stage.
Proof.
  intros Hin. split.
  - cbn [scene_heap demo_stage]. by destruct (decide (scene = 2)).
  - cbn [demo_stage this scenes next] in *.
    repeat (apply elem_of_cons in Hin as [->|Hin]; [lia|]).
    by apply elem_of_nil in Hin.
Qed.

Lemma sample_components_named : Forall named_component sample_components.
Proof. repeat constructor; by eexists _, _. Qed.

Lemma sample_scenes_ok : Forall scene_ok sample_scenes.
Proof.
  repeat constructor.
  - eexists. split; [reflexivity|]. split.
    + right. exists sample_components. split; [reflexivity|].
      apply sample_components_named.
    + by left.
  - eexists. split; [reflexivity|]. split; by left.
Qed.

(** [render] before [init] on [dirty_stage]. *)
Lemma render_before_init_demo :
  ∃ msg, Stage.render VNull dirty_stage = (Throw (TypeError msg), dirty_stage).
Proof. exact (proj1 (render_before_init dirty_stage VNull eq_refl)). Defined.

(** [setSize] before [init] on [dirty_stage]: both scenes are resized. *)
Lemma setSize_before_init_demo :
  ∃ msg w',
    Stage.setSize (VNum 1280) (VNum 720) dirty_stage = (Throw (TypeError msg), w') ∧
    trace w' = [EvSceneSetSize 2 (VNum 1280) (VNum 720);
                EvSceneSetSize 3 (VNum 1280) (VNum 720)].
Proof.
  destruct (setSize_before_init_resizes_scenes dirty_stage (VNum 1280) (VNum 720) eq_refl)
    as (msg & w' & Hrun & _ & _ & _ & Htrace).
  by exists msg, w'.
Defined.

(** Removing the hookless scene of [bare_stage]. *)
Lemma removeScene_without_hook_demo :
  ∃ msg w',
    Stage.removeScene 2 bare_stage = (Throw (TypeError msg), w') ∧
    scenes (this w') = [3] ∧ changed (this w') = false.
Proof.
  destruct (removeScene_without_hook bare_stage 2 eq_refl)
    as (msg & w' & Hrun & Hscenes & _ & _ & Hchanged & _).
  by exists msg, w'.
Defined.

(** Adding scene 5 at the front of [demo_stage]. *)
Lemma addScene_at_front_demo :
  ∃ w', Stage.addScene ∅ (Some 5) (Some 0%Z) demo_stage = (Ok 5, w') ∧
        scenes (this w') = [5; 2; 3].
Proof.
  destruct (addScene_at_index ∅ demo_stage 5 0) as (w' & Hrun & Hscenes & _).
  - cbn [demo_stage this scenes length]. lia.
  - by exists w'.
Defined.

(** Adding scene 5 to [demo_stage] and removing it again. *)
Lemma addScene_removeScene_demo :
  ∃ w', (Stage.addScene ∅ (Some 5) None ;; Stage.removeScene 5) demo_stage = (Ok tt, w') ∧
        scenes (this w') = [2; 3] ∧ changed (this w') = true.
Proof.
  destruct (addScene_removeScene_roundtrip ∅ demo_stage 5)
    as (r & w' & Hrun & Hok & _ & Hscenes & _ & _ & Hchanged).
  - cbn [demo_stage this scenes]. intros Hin.
    repeat (apply elem_of_cons in Hin as [Hin|Hin]; [lia|]).
    by apply elem_of_nil in Hin.
  - rewrite (Hok eq_refl) in Hrun. by exists w'.
Defined.

(** Clearing the scenes of [demo_stage]. *)
Lemma clearScenes_demo :
  ∃ w', Stage.clearScenes demo_stage = (Ok tt, w') ∧
        scenes (this w') = [] ∧
        trace w' = [EvSceneRemoveFromStage 2 None; EvSceneRemoveFromStage 3 None;
                    EvResetDisplayCount].
Proof.
  destruct (clearScenes_detaches_all demo_stage)
    as (w' & Hrun & Hscenes & _ & _ & _ & Htrace & _).
  - intros scene Hin. by apply demo_stage_hooks.
  - by exists w'.
Defined.

(** Loading a known and an unknown component into scene 2: the reactors of
    the first are set for [b], then for [a], as its record defines them. *)
Lemma loadComponents_demo :
  js_forEach (VArr sample_components) (Stage.loadComponent sample_library 2) demo_stage =
  (Ok tt, mkWorld (this demo_stage) (records demo_stage) (scene_heap demo_stage) 4
            [EvSceneAddElement 2 "BarSpectrumDisplay" VUndef;
             EvSetReactor (OnElement 2 "BarSpectrumDisplay") "b" (VNum 1);
             EvSetReactor (OnElement 2 "BarSpectrumDisplay") "a" (VNum 2);
             EvLoggerWarn "Component not found:" (VStr "Nope")]).
Proof.
  assert (flat_map (component_events sample_library 2) sample_components
          = [EvSceneAddElement 2 "BarSpectrumDisplay" VUndef;
             EvSetReactor (OnElement 2 "BarSpectrumDisplay") "b" (VNum 1);
             EvSetReactor (OnElement 2 "BarSpectrumDisplay") "a" (VNum 2);
             EvLoggerWarn "Component not found:" (VStr "Nope")]) as Hevents
    by (by vm_compute).
  rewrite <- Hevents.
  exact (proj1 (loadComponents_skip_unknown sample_library 2 sample_components
                  demo_stage sample_components_named)).
Defined.

(** Loading [sample_config] into [demo_stage]: the two old scenes give way
    to two new ones. *)
Lemma loadConfig_replaces_scenes_demo :
  ∃ r w', Stage.loadConfig sample_width sample_height sample_library no_library ∅
            sample_config demo_stage = (r, w') ∧
          scenes (this w') = [4; 5] ∧ next w' = 6.
Proof.
  destruct (loadConfig_replaces_scenes sample_width sample_height sample_library
              no_library ∅ [("scenes", VArr sample_scenes)] sample_scenes demo_stage)
    as (r & w' & t & Hrun & Hscenes & Hnext & _).
  - apply demo_stage_hooks.
  - vm_compute. reflexivity.
  - apply sample_scenes_ok.
  - exists r, w'. split; [exact Hrun|]. split; [exact Hscenes|exact Hnext].
Defined.

(** [loadConfig(null)] on [demo_stage]. *)
Lemma loadConfig_null_demo :
  ∃ msg w', sample_load VNull demo_stage = (Throw (TypeError msg), w') ∧
            scenes (this w') = [] ∧ changed (this w') = true.
Proof.
  destruct (loadConfig_null_destroys_scenes sample_width sample_height no_library
              no_library ∅ demo_stage)
    as (msg & w' & Hrun & Hscenes & _ & Hchanged & _).
  - intros scene Hin. by apply demo_stage_hooks.
  - by exists msg, w'.
Defined.

(** [update({ zoom: 1 })] on [demo_stage], whose zoom is 1 already. *)
Lemma update_without_change_demo :
  Stage.update (VObj [("zoom", VNum 1)]) demo_stage = (Ok false, demo_stage).
Proof.
  apply (update_without_change demo_stage (VObj [("zoom", VNum 1)])).
  intros key v Hkey. cbn [JS.own_props] in Hkey. rewrite defined_singleton in Hkey.
  apply lookup_singleton_Some in Hkey as [<- <-]. reflexivity.
Defined.

(** [update({ width: 100 })] on [demo_stage]: the resize pairs the new width
    with the height the Stage had. *)
Lemma update_width_demo :
  ∃ w', Stage.update (VObj [("width", VNum 100)]) demo_stage = (Ok true, w') ∧
        trace w' =
          [EvSceneSetSize 2 (VNum 100) (VNum 480); EvSceneSetSize 3 (VNum 100) (VNum 480);
           EvComposerSetSize (VNum 100) (VNum 480);
           EvCanvasBufferSetSize (VNum 100) (VNum 480);
           EvGLBufferSetSize (VNum 100) (VNum 480); EvEmit "stage-resize"].
Proof.
  destruct (update_resizes_to_merged_size demo_stage
              (mkResources (VStr "canvas") (VStr "#000000"))
              (VObj [("width", VNum 100)]) "width" (VNum 100))
    as (w' & Hrun & _ & Hwritten & Hkept & Htrace & _);
    [reflexivity|reflexivity|reflexivity|by left|].
  exists w'. split; [exact Hrun|]. rewrite Htrace.
  unfold Stage.prop.
  rewrite (Hwritten "width" (VNum 100)) by reflexivity.
  rewrite (Hkept "height") by reflexivity.
  reflexivity.
Defined.

(** [update({ backgroundColor: '#ffffff' })] before [init]. *)
Lemma update_backgroundColor_demo :
  ∃ msg w',
    Stage.update (VObj [("backgroundColor", VStr "#ffffff")]) dirty_stage
      = (Throw (TypeError msg), w') ∧
    Stage.this_properties w' !! "backgroundColor" = Some (VStr "#ffffff").
Proof.
  destruct (update_backgroundColor dirty_stage
              (VObj [("backgroundColor", VStr "#ffffff")]) (VStr "#ffffff"))
    as (res & w' & Hrun & Hcolor & _ & Hcase);
    [vm_compute; reflexivity..|].
  cbn [dirty_stage this resources] in Hcase.
  destruct Hcase as ((msg & ->) & _).
  exists msg, w'. split; [exact Hrun|exact Hcolor].
Defined.

(** Moving the first scene of [demo_stage] down and up again. *)
Lemma shiftScene_there_and_back_demo :
  ∃ w1 w2,
    Stage.shiftScene 2 1 demo_stage = (Ok true, w1) ∧ scenes (this w1) = [3; 2] ∧
    Stage.shiftScene 2 (-1) w1 = (Ok true, w2) ∧ scenes (this w2) = [2; 3].
Proof.
  destruct (shiftScene_there_and_back demo_stage 2 3 0 1)
    as (w1 & w2 & Hrun1 & Hs1 & _ & Hrun2 & Hs2 & _).
  - cbn [demo_stage this scenes]. apply NoDup_cons. split; [|apply NoDup_singleton].
    intros Hin. apply elem_of_cons in Hin as [Hin|Hin]; [lia|by apply elem_of_nil in Hin].
  - reflexivity.
  - reflexivity.
  - lia.
  - by exists w1, w2.
Defined.

(** Scene 5 is found by its id once it is added to [demo_stage]. *)
Lemma getScene_after_addScene_demo :
  ∃ w', (Stage.addScene ∅ (Some 5) None ;; Stage.getScene sample_id (VStr "scene-5"))
          demo_stage = (Ok (Some 5), w').
Proof.
  destruct (getScene_follows_scene_list sample_id ∅ demo_stage 5) as [Hadd _].
  - reflexivity.
  - intros other Hin _. cbn [demo_stage this scenes] in Hin.
    repeat (apply elem_of_cons in Hin as [->|Hin]; [reflexivity|]).
    by apply elem_of_nil in Hin.
  - destruct Hadd as [_ Hfound]; [|exact Hfound].
    cbn [demo_stage this scenes]. intros Hin.
    repeat (apply elem_of_cons in Hin as [Hin|Hin]; [lia|]).
    by apply elem_of_nil in Hin.
Defined.

(** ** Zoom at the limits *)

(** At the limits [setZoom] does not call [update] at all: with a positive
    argument and a zoom that is not below 1.0, or a negative argument and a
    zoom that is not above 0.25, the Stage, its properties and its dirty flag
    are left as they were, and the one effect is the zoom notification. *)
Theorem setZoom_at_limit (w : World) (val z : float) :
  zoom_of w = VNum z →
  (PrimFloat.ltb 0 val = true ∧ PrimFloat.ltb z 1 = false) ∨
  (PrimFloat.ltb 0 val = false ∧ PrimFloat.ltb val 0 = true ∧
   PrimFloat.ltb 0.25 z = false) →
  Stage.setZoom val w = (Ok tt, record_event (EvEmit "zoom") w).
Proof.
  intros Hz Hlimit. unfold Stage.setZoom. rewrite get_bind. cbv zeta.
  fold (zoom_of w). rewrite Hz. cbn [Stage.as_number].
  destruct Hlimit as [[-> Hlt]|(-> & -> & Hlt)].
  - by rewrite (bind_ok _ _ w w tt) by (by rewrite mret_bind, Hlt).
  - by rewrite (bind_ok _ _ w w tt) by (by rewrite mret_bind, Hlt).
Qed.

(** [setZoom(1)] on [demo_stage], whose zoom is 1.0. *)
Lemma setZoom_at_limit_demo :
  Stage.setZoom 1 demo_stage = (Ok tt, record_event (EvEmit "zoom") demo_stage).
Proof.
  apply (setZoom_at_limit demo_stage 1 1); [reflexivity|].
  left. split; reflexivity.
Defined.

(** ** Serialised records are snapshots *)

Lemma own_ret {A} (a : A) : writes_own_record (mret a : M A).
Proof. by intros w. Qed.

Lemma own_throw {A} (e : error) : writes_own_record (throw e : M A).
Proof. by intros w. Qed.

Lemma own_log (e : event) : writes_own_record (log e).
Proof. by intros w. Qed.

Lemma own_bind {A B} (m : M A) (f : A → M B) :
  writes_own_record m → (∀ a, writes_own_record (f a)) → writes_own_record (m ≫= f).
Proof.
  intros Hm Hf w. specialize (Hm w). unfold mbind, M_bind.
  destruct (m w) as [[a|e] w1]; cbn [snd] in *; [|done].
  destruct Hm as [Hp Hr]. destruct (Hf a w1) as [Hp' Hr'].
  split; [congruence|]. intros l Hl. rewrite Hr' by congruence. by apply Hr.
Qed.

Lemma own_forEach {A} (l : list A) (f : A → M unit) :
  (∀ a, writes_own_record (f a)) → writes_own_record (forEach l f).
Proof.
  intros Hf. induction l as [|x l IH]; [apply own_ret|].
  cbn [forEach]. by apply own_bind.
Qed.

Lemma own_resource (method : string) : writes_own_record (Stage.resource method).
Proof.
  intros w. unfold Stage.resource. rewrite get_bind.
  by destruct (resources (this w)).
Qed.

Lemma own_get_field (v : value) (key : string) : writes_own_record (get_field v key).
Proof. destruct v; first [apply own_ret|apply own_throw]. Qed.

Lemma own_setSize (width height : value) : writes_own_record (Stage.setSize width height).
Proof.
  assert (∀ l : list loc,
    writes_own_record
      (forEach l (λ scene, log (EvSceneSetSize scene width height));;
       Stage.resource "setSize";; log (EvComposerSetSize width height);;
       Stage.resource "setSize";; log (EvCanvasBufferSetSize width height);;
       Stage.resource "setSize";; log (EvGLBufferSetSize width height);;
       log (EvEmit "stage-resize"))) as Hbody.
  { intros l.
    repeat first
      [ apply own_log
      | apply own_resource
      | apply own_forEach; intros ?
      | apply own_bind; [|intros ?] ]. }
  intros w. unfold Stage.setSize. rewrite get_bind. apply Hbody.
Qed.

Lemma own_Display_update (p : value) : writes_own_record (Stage.Display_update p).
Proof.
  intros w. unfold Stage.Display_update. rewrite get_bind. cbv zeta.
  destruct (map_to_list _) as [|kv kvs]; [done|].
  unfold mbind, M_bind, modify, mret, M_ret, set_record, set_this, set_changed.
  cbn [snd this records properties]. split; [done|].
  intros l Hl. by rewrite fn_lookup_insert_ne.
Qed.

(** [update] writes no property record but the Stage's own. *)
Lemma own_update (p : value) : writes_own_record (Stage.update p).
Proof.
  unfold Stage.update.
  apply own_bind; [apply own_Display_update|]. intros changed0.
  apply own_bind; [|intros ?; apply own_ret].
  destruct changed0; [|apply own_ret].
  apply own_bind; [apply own_get_field|]. intros pw.
  apply own_bind; [apply own_get_field|]. intros ph.
  apply own_bind.
  { destruct (_ || _); [|apply own_ret].
    intros w. rewrite get_bind. apply own_setSize. }
  intros _. apply own_bind; [apply own_get_field|]. intros pb.
  destruct (negb _); [|apply own_ret].
  apply own_bind; [apply own_resource|]. intros r.
  apply own_bind; [apply own_log|]. intros _.
  by intros w.
Qed.

(** The record [toJSON()] returned is a snapshot: every call builds a record
    of its own, and whatever [update] does to the Stage afterwards, with
    success or not, the record returned before still holds the properties the
    Stage had when it was serialised. *)
Theorem toJSON_snapshot (w : World) (p : value) :
  properties (this w) < next w →
  ∃ j w1 res w2 j' w3,
    Stage.toJSON w = (Ok j, w1) ∧
    Stage.update p w1 = (res, w2) ∧
    records w2 (Stage.json_properties j) = Stage.this_properties w ∧
    Stage.toJSON w2 = (Ok j', w3) ∧
    Stage.json_properties j' ≠ Stage.json_properties j ∧
    records w3 (Stage.json_properties j) = Stage.this_properties w ∧
    records w3 (Stage.json_properties j') = Stage.this_properties w2.
Proof.
  intros Halloc. rewrite toJSON_run.
  set (w1 := mkWorld _ _ _ _ _).
  destruct (own_update p w1) as [Hprops Hrecords].
  destruct (keeps_update p w1) as (_ & _ & Hnext & _).
  destruct (Stage.update p w1) as [res w2] eqn:Hupdate. cbn [snd] in *.
  eexists _, w1, res, w2, _, _. split; [reflexivity|]. split; [exact Hupdate|].
  rewrite toJSON_run. cbn [Stage.json_properties records].
  subst w1. cbn [this records next properties] in *.
  split; [rewrite Hrecords by lia; by rewrite fn_lookup_insert|].
  split; [reflexivity|].
  cbn [Stage.json_properties records]. rewrite Hnext. split_and!.
  - lia.
  - rewrite fn_lookup_insert_ne by lia. rewrite Hrecords by lia.
    by rewrite fn_lookup_insert.
  - by rewrite fn_lookup_insert.
Qed.

(** [demo_stage] serialised, then zoomed out: the record keeps zoom 1. *)
Lemma toJSON_snapshot_demo :
  ∃ j w1 res w2,
    Stage.toJSON demo_stage = (Ok j, w1) ∧
    Stage.update (VObj [("zoom", VNum 0.5)]) w1 = (res, w2) ∧
    records w2 (Stage.json_properties j) !! "zoom" = Some (VNum 1).
Proof.
  destruct (toJSON_snapshot demo_stage (VObj [("zoom", VNum 0.5)]))
    as (j & w1 & res & w2 & j' & w3 & Hrun & Hupdate & Hrecord & _).
  - cbn [demo_stage this properties next]. lia.
  - exists j, w1, res, w2. split; [exact Hrun|]. split; [exact Hupdate|].
    rewrite Hrecord. vm_compute. reflexivity.
Defined.
